(** * vue-cache-decorator: the [@Cache] property decorator (src/cache.ts)

    A shallow embedding of the decorator's pipeline: key resolution
    ([makeKey]), the value filters ([purgeExceptList], [purgeOnlyList],
    the [modifier] chosen by [Cache]), the merge of a stored value with the
    property's default ([merge], the [created] hook) and the registration of
    the change watcher.

    JavaScript values live in a heap of objects, because several properties
    are about reference identity (a clone must not alias its input). *)

From Stdlib Require Import ZArith Lia Ascii String.
From stdpp Require Import base option list strings gmap pretty.

Open Scope string_scope.
Open Scope list_scope.
Set Warnings "-register-all,-clear-no-such-hyp".

(** ** Values and the object heap *)

Module JS.

Abbreviation loc := nat (only parsing).

(** A JavaScript value: the primitives the decorator can meet in a cached
    property, or a reference to a plain object in the heap.  Numbers are
    never computed with, only moved around and tested for truthiness, so an
    integer payload stands for them.  A string is a sequence of code units,
    one [ascii] each: the texts of this model are those whose characters
    are one code unit wide and fit in a byte. *)
Inductive value : Type :=
  | VUndefined
  | VNull
  | VBool (b : bool)
  | VNumber (n : Z)
  | VString (s : string)
  | VRef (l : loc).

#[global] Instance value_eq_dec : EqDecision value.
Proof. solve_decision. Defined.

(** The own enumerable properties of a plain object, in insertion order. *)
Abbreviation props := (list (string * value)) (only parsing).

(** The heap: object [l] is the [l]-th cell; allocation appends a cell. *)
Abbreviation heap := (list (list (string * value))) (only parsing).

(** [typeof v] *)
Definition typeof (v : value) : string :=
  match v with
  | VUndefined => "undefined"
  | VNull => "object"
  | VBool _ => "boolean"
  | VNumber _ => "number"
  | VString _ => "string"
  | VRef _ => "object"
  end.

(** [!!v]: the value is truthy *)
Definition truthy (v : value) : bool :=
  match v with
  | VUndefined | VNull => false
  | VBool b => b
  | VNumber n => negb (n =? 0)%Z
  | VString s => negb (String.eqb s "")
  | VRef _ => true
  end.

(** [o[k]] on a property list (of values, or of trees) *)
Fixpoint get_prop {A} (k : string) (o : list (string * A)) : option A :=
  match o with
  | [] => None
  | (k', v) :: r => if String.eqb k' k then Some v else get_prop k r
  end.

(** [delete o[k]] on a property list: absent keys are left alone *)
Fixpoint delete_prop {A} (k : string) (o : list (string * A))
  : list (string * A) :=
  match o with
  | [] => []
  | (k', v) :: r =>
      if String.eqb k' k then delete_prop k r else (k', v) :: delete_prop k r
  end.

(** [o[k] = v]: an existing key keeps its place, a new key goes last *)
Fixpoint set_prop {A} (k : string) (v : A) (o : list (string * A))
  : list (string * A) :=
  match o with
  | [] => [(k, v)]
  | (k', v') :: r =>
      if String.eqb k' k then (k', v) :: r else (k', v') :: set_prop k v r
  end.

Definition keys {A} (o : list (string * A)) : list string := map fst o.

(** The properties of [target] with those of [source] written over them,
    in the order of [source].  The enumeration order of integer-like keys
    (which JavaScript lists first) is not modelled: no statement below is
    about the order of the keys of a merged object. *)
Definition overlay {A} (target source : list (string * A)) : list (string * A) :=
  fold_left (fun o kv => set_prop kv.1 kv.2 o) source target.

(** Where the prototype of the object [Object.assign] writes to stands.
    The object is a fresh [{}], so it starts with [Object.prototype], from
    which it inherits the [__proto__] accessor. *)
Inductive proto : Type :=
  | ObjectPrototype
  | NullPrototype
  | OtherPrototype.

(** One [target[k] = v] of [Object.assign], which writes with [[Set]].
    For every key but [__proto__] the target gets an own property.  For
    [__proto__], as long as the accessor of [Object.prototype] is
    inherited, its setter runs and no own property is made: the setter
    changes the prototype to an object or to [null], and ignores any other
    value.  Once the prototype is [null] nothing is inherited, and
    [__proto__] is an ordinary key.  Once the prototype is another object
    the outcome depends on that object's own chain: not covered. *)
Definition assign_one (st : proto * list (string * value))
    (kv : string * value) : option (proto * list (string * value)) :=
  let '(p, o) := st in
  if String.eqb kv.1 "__proto__" then
    match p with
    | ObjectPrototype =>
        match kv.2 with
        | VNull => Some (NullPrototype, o)
        | VRef _ => Some (OtherPrototype, o)
        | _ => Some (ObjectPrototype, o)
        end
    | NullPrototype => Some (NullPrototype, set_prop kv.1 kv.2 o)
    | OtherPrototype => None
    end
  else Some (p, set_prop kv.1 kv.2 o).

(** [Object.assign(target, source)]: the own enumerable properties of the
    source are written one by one, in their order. *)
Fixpoint assign (p : proto) (target source : list (string * value))
  : option (proto * list (string * value)) :=
  match source with
  | [] => Some (p, target)
  | kv :: r =>
      match assign_one (p, target) kv with
      | Some (p', target') => assign p' target' r
      | None => None
      end
  end.

(** ** Structural content of a value

    [tree] is what a value looks like when all references are followed:
    two values are deep-equal when they have the same tree. *)
Inductive tree : Type :=
  | TUndefined
  | TNull
  | TBool (b : bool)
  | TNumber (n : Z)
  | TString (s : string)
  | TObject (fields : list (string * tree)).

(** The number of nested objects of a tree *)
Fixpoint height (t : tree) : nat :=
  match t with
  | TObject fs => S (foldr (fun f m => Nat.max (height f.2) m) 0%nat fs)
  | _ => 0%nat
  end.

(** Follow references at most [n] objects deep. *)
Fixpoint snapshot_fuel (n : nat) (h : heap) (v : value) : option tree :=
  match v with
  | VUndefined => Some TUndefined
  | VNull => Some TNull
  | VBool b => Some (TBool b)
  | VNumber z => Some (TNumber z)
  | VString s => Some (TString s)
  | VRef l =>
      match n with
      | O => None
      | S n' =>
          match h !! l with
          | None => None
          | Some o =>
              TObject <$>
                mapM (fun kv : string * value =>
                        pair kv.1 <$> snapshot_fuel n' h kv.2) o
          end
      end
  end.

(** A chain of distinct objects in [h] is at most [length h] long, so this
    much fuel reads every acyclic value; [None] means a dangling or cyclic
    reference. *)
Definition snapshot (h : heap) (v : value) : option tree :=
  snapshot_fuel (S (length h)) h v.

(** Build a tree out of fresh objects, children first. *)
Fixpoint alloc (h : heap) (t : tree) : heap * value :=
  match t with
  | TUndefined => (h, VUndefined)
  | TNull => (h, VNull)
  | TBool b => (h, VBool b)
  | TNumber z => (h, VNumber z)
  | TString s => (h, VString s)
  | TObject fs =>
      let '(h', o) :=
        (fix alloc_fields (h : heap) (fs : list (string * tree))
           : heap * props :=
           match fs with
           | [] => (h, [])
           | (k, t) :: r =>
               let '(h1, v) := alloc h t in
               let '(h2, o) := alloc_fields h1 r in
               (h2, (k, v) :: o)
           end) h fs in
      (h' ++ [o], VRef (length h'))
  end.

Fixpoint alloc_fields (h : heap) (fs : list (string * tree)) : heap * props :=
  match fs with
  | [] => (h, [])
  | (k, t) :: r =>
      let '(h1, v) := alloc h t in
      let '(h2, o) := alloc_fields h1 r in
      (h2, (k, v) :: o)
  end.

(** lodash's [cloneDeep] on the values of this model: the clone has the
    structure of the input and is made of fresh objects only.  A value
    with a cyclic or dangling reference has no clone here. *)
Definition cloneDeep (h : heap) (v : value) : option (heap * value) :=
  alloc h <$> snapshot h v.

(** [v] is not a reference to one of the first [n] objects of the heap. *)
Definition value_above (n : nat) (v : value) : Prop :=
  match v with
  | VRef l => (n <= l)%nat
  | _ => True
  end.

#[global] Instance value_above_dec n v : Decision (value_above n v).
Proof. destruct v; simpl; apply _. Defined.

(** The objects of [k] hold no reference to the first [n] objects. *)
Definition cells_above (n : nat) (k : heap) : Prop :=
  Forall (Forall (fun kv : string * value => value_above n kv.2)) k.

(** The properties [o] of an object read, in heap [h], as the fields [fs]:
    same keys in the same order, and each value has the field's structure. *)
Definition fields_match (h : heap) (o : props) (fs : list (string * tree)) : Prop :=
  Forall2 (fun (p : string * value) (f : string * tree) =>
             p.1 = f.1 /\ snapshot_fuel (length h) h p.2 = Some f.2) o fs.

(** The field [k] of a tree, and a tree without the fields named in [ks] *)
Definition field (k : string) (t : tree) : option tree :=
  match t with
  | TObject fs => get_prop k fs
  | _ => None
  end.

Definition mentions (ks : list string) (k : string) : bool :=
  existsb (String.eqb k) ks.

Definition without (ks : list string) (fs : list (string * tree))
  : list (string * tree) :=
  List.filter (fun f => negb (mentions ks f.1)) fs.

(** [t'] is [t], or [t] without some of its top-level fields, chosen by
    name. *)
Definition pruned (t t' : tree) : Prop :=
  t' = t \/
  exists (fs : list (string * tree)) (g : string -> bool),
    t = TObject fs /\ t' = TObject (List.filter (fun f => g f.1) fs).

(** What [alloc] builds: the heap grows by fresh cells [k] that hold no
    reference to the old heap, and following the references of the value
    returned gives the tree back. *)
Definition alloc_ok (t : tree) : Prop :=
  forall (h h' : list (list (string * value))) (v : value),
    alloc h t = (h', v) ->
    exists k, h' = h ++ k /\ height t <= length k /\
      snapshot_fuel (height t) h' v = Some t /\
      value_above (length h) v /\ cells_above (length h) k.

Definition alloc_fields_ok (fs : list (string * tree)) : Prop :=
  forall (h h' : list (list (string * value))) (o : list (string * value)),
    alloc_fields h fs = (h', o) ->
    exists k, h' = h ++ k /\
      foldr (fun f m => Nat.max (height f.2) m) 0 fs <= length k /\
      Forall2 (fun (p : string * value) (f : string * tree) =>
                 p.1 = f.1 /\
                 forall n, foldr (fun f m => Nat.max (height f.2) m) 0 fs <= n ->
                           snapshot_fuel n h' p.2 = Some f.2) o fs /\
      Forall (fun kv : string * value => value_above (length h) kv.2) o /\
      cells_above (length h) k.

(** Induction on trees, with the hypothesis for every field of an object *)
Fixpoint tree_ind' (P : tree -> Prop)
    (Hundefined : P TUndefined) (Hnull : P TNull)
    (Hbool : forall b, P (TBool b)) (Hnumber : forall n, P (TNumber n))
    (Hstring : forall s, P (TString s))
    (Hobject : forall fs, Forall (fun f => P f.2) fs -> P (TObject fs))
    (t : tree) : P t :=
  match t with
  | TUndefined => Hundefined
  | TNull => Hnull
  | TBool b => Hbool b
  | TNumber n => Hnumber n
  | TString s => Hstring s
  | TObject fs =>
      Hobject fs
        ((fix fields (fs : list (string * tree)) : Forall (fun f => P f.2) fs :=
            match fs with
            | [] => @List.Forall_nil _ _
            | f :: r =>
                @List.Forall_cons _ _ f r
                  (tree_ind' P Hundefined Hnull Hbool Hnumber Hstring Hobject f.2)
                  (fields r)
            end) fs)
  end.

End JS.

(** ** Effects: exceptions and the console *)

Inductive exn : Type :=
  | TypeError (msg : string)
  | SyntaxError.

(** What running a piece of code gives: a result, an exception raised to
    the caller, or [OutOfModel] when the code was handed a value this model
    does not cover (a cyclic or dangling reference). *)
Inductive outcome (A : Type) : Type :=
  | Ok (a : A)
  | Throw (e : exn)
  | OutOfModel.
Arguments Ok {A} a.
Arguments Throw {A} e.
Arguments OutOfModel {A}.

Definition obind {A B} (m : outcome A) (f : A -> outcome B) : outcome B :=
  match m with
  | Ok a => f a
  | Throw e => Throw e
  | OutOfModel => OutOfModel
  end.

Definition covered {A} (m : option A) : outcome A :=
  match m with
  | Some a => Ok a
  | None => OutOfModel
  end.

Notation "'try' x <- m ; k" := (obind m (fun x => k))
  (at level 10, x pattern, m at level 100, k at level 200).

Inductive log_entry : Type :=
  | Warn (msg : string)
  | Error (msg : string).

(** ** Key resolution *)

Module Key.

Definition is_digit (c : ascii) : bool :=
  let n := nat_of_ascii c in (48 <=? n)%nat && (n <=? 57)%nat.

(** [strip_prefix p s]: what follows [p] in [s], when [s] starts with [p] *)
Fixpoint strip_prefix (p s : string) : option string :=
  match p with
  | EmptyString => Some s
  | String a p' =>
      match s with
      | EmptyString => None
      | String b s' => if Ascii.eqb a b then strip_prefix p' s' else None
      end
  end.

Fixpoint drop_digits (s : string) : string :=
  match s with
  | String c r => if is_digit c then drop_digits r else s
  | EmptyString => EmptyString
  end.

(** The regular expression [/vue-component-\d+-/] matched at the start of
    [s]: the text after the match.  [\d+] is greedy and the character that
    must follow is not a digit, so the digits of a match are the whole run
    of digits. *)
Definition match_here (s : string) : option string :=
  match strip_prefix "vue-component-" s with
  | None => None
  | Some r =>
      match r with
      | String c _ =>
          if is_digit c then
            match drop_digits r with
            | String "-" rest => Some rest
            | _ => None
            end
          else None
      | EmptyString => None
      end
  end.

(** [s.replace(/vue-component-\d+-/, "")]: without the [g] flag the
    leftmost match, wherever it is, is removed, and only that one. *)
Fixpoint replace_first (s : string) : string :=
  match match_here s with
  | Some rest => rest
  | None =>
      match s with
      | EmptyString => EmptyString
      | String c r => String c (replace_first r)
      end
  end.

(** A text the expression matches: the fixed part, digits, a dash. *)
Definition pattern (ds : string) : string := "vue-component-" +:+ ds +:+ "-".

Fixpoint all_digits (s : string) : bool :=
  match s with
  | EmptyString => true
  | String c r => is_digit c && all_digits r
  end.

(** No match of the expression starts at a position of [pre] in the text
    [pre +:+ rest]. *)
Fixpoint unmatched_in (pre rest : string) : bool :=
  match pre with
  | EmptyString => true
  | String c p =>
      match match_here (pre +:+ rest) with
      | Some _ => false
      | None => unmatched_in p rest
      end
  end.

(** The character [c] does not occur in [s]. *)
Fixpoint lacks (c : ascii) (s : string) : bool :=
  match s with
  | EmptyString => true
  | String a r => negb (Ascii.eqb c a) && lacks c r
  end.

(** The identity as the specification words it: the tag without a
    "vue-component-<number>-" prefix, when it has one. *)
Definition strip_numbered_prefix (tag : string) : string :=
  match match_here tag with
  | Some rest => rest
  | None => tag
  end.

End Key.

(** ** JSON texts

    A reader and a writer for the JSON texts of the values modelled here:
    [null], [true], [false], integers, strings without escapes and objects,
    with no white space (as [JSON.stringify] writes them).  They stand for
    [JSON.parse] and [JSON.stringify] where a concrete text is needed; the
    hooks below take the two functions as parameters. *)

Module JSONText.
Import JS Key.

Definition dq : ascii := ascii_of_nat 34.
Definition quoted (s : string) : string :=
  String dq s +:+ String dq EmptyString.

(** The characters up to the closing quote, and what follows it. *)
Fixpoint read_string (s : string) : option (string * string) :=
  match s with
  | EmptyString => None
  | String c r =>
      if Ascii.eqb c dq then Some (EmptyString, r)
      else if Ascii.eqb c "\"%char then None
      else match read_string r with
           | Some (x, r') => Some (String c x, r')
           | None => None
           end
  end.

Fixpoint read_digits (s : string) (acc : Z) : Z * string :=
  match s with
  | String c r =>
      if is_digit c
      then read_digits r (10 * acc + Z.of_nat (nat_of_ascii c - 48))%Z
      else (acc, s)
  | EmptyString => (acc, s)
  end.

(** A natural number in decimal, with no leading zero *)
Definition read_nat (s : string) : option (Z * string) :=
  match s with
  | String c r =>
      if is_digit c then
        match r with
        | String c' _ =>
            if Ascii.eqb c "0"%char && is_digit c' then None
            else Some (read_digits s 0%Z)
        | EmptyString => Some (read_digits s 0%Z)
        end
      else None
  | EmptyString => None
  end.

(** The members of an object after its opening brace; a repeated key keeps
    its place and takes the later value. *)
Fixpoint read_members (value : string -> option (tree * string)) (n : nat)
    (s : string) (acc : list (string * tree)) : option (tree * string) :=
  match n with
  | O => None
  | S n' =>
      match s with
      | String c r =>
          if Ascii.eqb c dq then
            match read_string r with
            | Some (k, String ":" r2) =>
                match value r2 with
                | Some (v, String "," r4) =>
                    read_members value n' r4 (set_prop k v acc)
                | Some (v, String "}" r4) =>
                    Some (TObject (set_prop k v acc), r4)
                | _ => None
                end
            | _ => None
            end
          else None
      | EmptyString => None
      end
  end.

Fixpoint read_value (fuel : nat) (s : string) : option (tree * string) :=
  match fuel with
  | O => None
  | S fuel' =>
      match strip_prefix "null" s, strip_prefix "true" s, strip_prefix "false" s with
      | Some r, _, _ => Some (TNull, r)
      | _, Some r, _ => Some (TBool true, r)
      | _, _, Some r => Some (TBool false, r)
      | None, None, None =>
          match s with
          | String c r =>
              if Ascii.eqb c dq then
                match read_string r with
                | Some (x, r') => Some (TString x, r')
                | None => None
                end
              else if Ascii.eqb c "{"%char then
                match r with
                | String "}" r' => Some (TObject [], r')
                | _ => read_members (read_value fuel') (String.length s) r []
                end
              else if Ascii.eqb c "-"%char then
                match read_nat r with
                | Some (n, r') => Some (TNumber (- n), r')
                | None => None
                end
              else
                match read_nat s with
                | Some (n, r') => Some (TNumber n, r')
                | None => None
                end
          | EmptyString => None
          end
      end
  end.

(** The whole text must be one value. *)
Definition parse (s : string) : option tree :=
  match read_value (S (String.length s)) s with
  | Some (t, EmptyString) => Some t
  | _ => None
  end.

(** The text written for a value; a field whose value is [undefined] is
    left out, and [undefined] itself is stored as the word. *)
Fixpoint stringify (t : tree) : string :=
  match t with
  | TUndefined => "undefined"
  | TNull => "null"
  | TBool true => "true"
  | TBool false => "false"
  | TNumber n => pretty n
  | TString s => quoted s
  | TObject fs =>
      "{" +:+
      (fix members (fs : list (string * tree)) (sep : string) : string :=
         match fs with
         | [] => ""
         | (_, TUndefined) :: r => members r sep
         | (k, t) :: r =>
             sep +:+ quoted k +:+ ":" +:+ stringify t +:+ members r ","
         end) fs "" +:+ "}"
  end.

End JSONText.

(** ** The decorator *)

Module Cache.
Import JS Key.

(** [string | string[]]: one property name or a list of them *)
Inductive names : Type :=
  | One (name : string)
  | Many (list_ : list string).

(** An empty string is falsy, an array (even empty) is truthy. *)
Definition names_truthy (n : names) : bool :=
  match n with
  | One s => negb (String.eqb s "")
  | Many _ => true
  end.

Definition name_list (n : names) : list string :=
  match n with
  | One s => [s]
  | Many l => l
  end.

Definition set_names (o : option names) : bool :=
  match o with
  | Some n => names_truthy n
  | None => false
  end.

Definition set_string (o : option string) : bool :=
  match o with
  | Some s => negb (String.eqb s "")
  | None => false
  end.

(** A custom [cacheStore]: which of the two functions the object has. *)
Record Storage : Type := {
  has_getItem : bool;
  has_setItem : bool
}.

(** [CacheOptionsWithExcept<T> | CacheOptionsWithOnly<T>].  [deep] is the
    option of the README's table; the type does not declare it. *)
Record CacheOptions : Type := {
  globalDispatch : option string;
  cacheKey : option string;
  cacheStore : option Storage;
  except : option names;
  only : option names;
  deep : option bool
}.

(** [vm.$vnode], the placeholder node of the component in its parent: it
    has an optional [tag]. *)
Record VNode : Type := {
  tag : option string
}.

(** The component instance: [vm.$vnode], which a root instance does not
    have, and the instance's data. *)
Record Vue : Type := {
  vnode : option VNode;
  data : list (string * value)
}.

(** [makeKey]: the storage key, with what it writes to the console.
    Without a [cacheKey], [vm.$vnode.tag] is read: on an instance without
    [$vnode] that is reading a property of [undefined], which raises. *)
Definition makeKey (vm : Vue) (key : string) (options : option CacheOptions)
  : outcome (list log_entry * string) :=
  let explicit := options ≫= cacheKey in
  if set_string explicit then Ok ([], default "" explicit)
  else
    match vnode vm with
    | None =>
        Throw (TypeError "Cannot read properties of undefined (reading 'tag')")
    | Some node =>
        if negb (set_string (tag node)) then
          Ok ([Warn "@Cache: vm.$vnode.tag was null"], key)
        else
          let tag := default "" (tag node) in
          let name := replace_first tag in
          let name := if (String.length name =? 0)%nat then tag else name in
          Ok ([], name +:+ "[" +:+ key +:+ "]")
    end.

(** The own properties the [delete] operator cannot remove from a string
    primitive: its indices and [length]. *)
Definition string_own (s k : string) : bool :=
  String.eqb k "length"
  || existsb (fun i : nat => String.eqb (pretty i) k) (seq 0 (String.length s)).

(** [delete v[k]].  cache.ts has [import] and [export] declarations, so it
    is module code, and module code is strict: a [delete] that fails raises
    a [TypeError] instead of evaluating to [false].  A plain object loses
    the key if it has it; numbers and booleans have no own property, so
    there is nothing to fail on; the own properties of a string (indices,
    [length]) are not configurable, so deleting one raises. *)
Definition delete_property (h : heap) (v : value) (k : string) : outcome heap :=
  match v with
  | VRef l =>
      match h !! l with
      | Some o => Ok (<[l := delete_prop k o]> h)
      | None => OutOfModel
      end
  | VString s =>
      if string_own s k then Throw (TypeError "Cannot delete property")
      else Ok h
  | VBool _ | VNumber _ => Ok h
  | VUndefined | VNull =>
      Throw (TypeError "Cannot convert undefined or null to object")
  end.

(** [Object.getOwnPropertyNames(v)] *)
Definition getOwnPropertyNames (h : heap) (v : value) : outcome (list string) :=
  match v with
  | VRef l => covered (keys <$> h !! l)
  | VString s => Ok (map pretty (seq 0 (String.length s)) ++ ["length"])
  | VBool _ | VNumber _ => Ok []
  | VUndefined | VNull =>
      Throw (TypeError "Cannot convert undefined or null to object")
  end.

(** [for (const p of ps) if (!keep(p)) delete v[p]] *)
Fixpoint delete_unless (keep : string -> bool) (h : heap) (v : value)
    (ps : list string) : outcome heap :=
  match ps with
  | [] => Ok h
  | p :: r =>
      if keep p then delete_unless keep h v r
      else try h' <- delete_property h v p; delete_unless keep h' v r
  end.

(** The names [delete_unless] deletes *)
Definition deleted (keep : string -> bool) (ps : list string) : list string :=
  List.filter (fun p => negb (keep p)) ps.

(** [purgeExceptList] *)
Definition purgeExceptList (h : heap) (value : value) (except : option names)
  : outcome (heap * JS.value) :=
  try (h1, newValue) <- covered (cloneDeep h value);
  if set_names except && truthy newValue then
    match except with
    | Some (Many es) =>
        try h2 <- delete_unless (fun _ => false) h1 newValue es;
        Ok (h2, newValue)
    | Some (One e) =>
        try h2 <- delete_property h1 newValue e;
        Ok (h2, newValue)
    | None => Ok (h1, newValue)
    end
  else Ok (h1, newValue).

(** [only.find(o => o === p)] is the name found, and [!] of it is true when
    nothing is found or when the name found is the empty string. *)
Definition found_truthy (only : list string) (p : string) : bool :=
  set_string (find (fun o => String.eqb o p) only).

(** The test [purgeOnlyList] keeps a property name by *)
Definition only_keep (only : names) (p : string) : bool :=
  match only with
  | Many os => found_truthy os p
  | One o => String.eqb p o
  end.

(** [purgeOnlyList] *)
Definition purgeOnlyList (h : heap) (value : value) (only : option names)
  : outcome (heap * JS.value) :=
  try (h1, newValue) <- covered (cloneDeep h value);
  if set_names only && truthy newValue then
    try props <- getOwnPropertyNames h1 newValue;
    match only with
    | Some (Many os) =>
        try h2 <- delete_unless (found_truthy os) h1 newValue props;
        Ok (h2, newValue)
    | Some (One o) =>
        try h2 <- delete_unless (fun p => String.eqb p o) h1 newValue props;
        Ok (h2, newValue)
    | None => Ok (h1, newValue)
    end
  else Ok (h1, newValue).

(** [purge h v names] hands back a clone of [v], whose structure in [h] is
    [t]: the heap only grows, by cells that hold no reference to the old
    ones; the value returned refers to none of the old objects; and its
    structure is [t], or [t] without some top-level fields, and [t] itself
    when [names] is not set or [v] is falsy. *)
Definition returns_clone (h : heap) (v : value) (t : tree) (names : option names)
    (r : outcome (heap * JS.value)) : Prop :=
  exists (k : heap) (v' : JS.value) (t' : tree),
    r = Ok (h ++ k, v') /\
    value_above (length h) v' /\ cells_above (length h) k /\
    snapshot (h ++ k) v' = Some t' /\ pruned t t' /\
    (set_names names && truthy v = false -> t' = t).

(** A [delete] is attempted on a string: the list is set and the string is
    not empty. *)
Definition deletes_from_string (names : option names) (v : value) : bool :=
  match v with
  | VString _ => set_names names && truthy v
  | _ => false
  end.

(** The own enumerable properties [Object.assign] copies from a source:
    nothing from [null], [undefined], a number or a boolean; the characters
    of a string under their indices; the properties of an object. *)
Definition own_enumerable (h : heap) (v : value) : list (string * JS.value) :=
  match v with
  | VRef l => default [] (h !! l)
  | VString s =>
      imap (fun i c => (pretty i, VString (String c EmptyString)))
           (list_ascii_of_string s)
  | _ => []
  end.

(** [merge]: "add properties of b into a inside a new reference".  The
    new object is a fresh [{}]; the properties of [a], then those of [b],
    are assigned to it. *)
Definition merge (h : heap) (a b : value) : outcome (heap * JS.value) :=
  try (p, o1) <- covered (assign ObjectPrototype [] (own_enumerable h a));
  try (_, o) <- covered (assign p o1 (own_enumerable h b));
  Ok (h ++ [o], VRef (length h)).

(** "non object or array types" *)
Definition simpleTypes : list string :=
  ["undefined"; "number"; "string"; "boolean"].

Definition includes (l : list string) (s : string) : bool :=
  existsb (String.eqb s) l.

(** The [modifier] that [Cache] picks from the options. *)
Definition modifier (cacheOptions : option CacheOptions) (h : heap) (v : value)
  : outcome (heap * JS.value) :=
  if set_names (cacheOptions ≫= except) then
    purgeExceptList h v (cacheOptions ≫= except)
  else if set_names (cacheOptions ≫= only) then
    purgeOnlyList h v (cacheOptions ≫= only)
  else Ok (h, v).

(** ** The world the hooks run in *)

Record world : Type := {
  w_heap : list (list (string * value));
  w_localStorage : gmap string string;  (* [window.localStorage] *)
  w_cacheStore : gmap string string;    (* the items of a custom store *)
  w_console : list log_entry;
  w_events : list (string * value)      (* [window.dispatchEvent] *)
}.

Definition with_heap (w : world) (h : heap) : world :=
  {| w_heap := h; w_localStorage := w_localStorage w;
     w_cacheStore := w_cacheStore w; w_console := w_console w;
     w_events := w_events w |}.

Definition console (w : world) (l : list log_entry) : world :=
  {| w_heap := w_heap w; w_localStorage := w_localStorage w;
     w_cacheStore := w_cacheStore w; w_console := w_console w ++ l;
     w_events := w_events w |}.

Definition dispatchEvent (w : world) (name : string) (detail : value) : world :=
  {| w_heap := w_heap w; w_localStorage := w_localStorage w;
     w_cacheStore := w_cacheStore w; w_console := w_console w;
     w_events := w_events w ++ [(name, detail)] |}.

(** [store]: [window.localStorage] unless a [cacheStore] is configured *)
Inductive store : Type :=
  | LocalStorage
  | CustomStore (s : Storage).

Definition store_of (cacheOptions : option CacheOptions) : store :=
  match cacheOptions ≫= cacheStore with
  | None => LocalStorage
  | Some s => CustomStore s
  end.

(** [store.getItem(k)]: [None] is the [null] of an absent key *)
Definition getItem (st : store) (k : string) (w : world)
  : outcome (option string) :=
  match st with
  | LocalStorage => Ok (w_localStorage w !! k)
  | CustomStore s =>
      if has_getItem s then Ok (w_cacheStore w !! k)
      else Throw (TypeError "store.getItem is not a function")
  end.

(** [store.setItem(k, x)] *)
Definition setItem (st : store) (k x : string) (w : world) : outcome world :=
  match st with
  | LocalStorage =>
      Ok {| w_heap := w_heap w; w_localStorage := <[k := x]> (w_localStorage w);
            w_cacheStore := w_cacheStore w; w_console := w_console w;
            w_events := w_events w |}
  | CustomStore s =>
      if has_setItem s then
        Ok {| w_heap := w_heap w; w_localStorage := w_localStorage w;
              w_cacheStore := <[k := x]> (w_cacheStore w);
              w_console := w_console w; w_events := w_events w |}
      else Throw (TypeError "store.setItem is not a function")
  end.

(** [this[key]] and [this.$set(this, key, v)] *)
Definition this_get (this : Vue) (key : string) : value :=
  default VUndefined (get_prop key (data this)).

Definition this_set (this : Vue) (key : string) (v : value) : Vue :=
  {| vnode := vnode this; data := set_prop key v (data this) |}.

(** A lifecycle hook, and a watcher's handler (called with the new value). *)
Definition hook : Type := Vue -> world -> outcome (Vue * world).
Definition handlerFn : Type := Vue -> value -> world -> outcome (Vue * world).

(** [String(v)], for the text of the warning *)
Definition to_string (v : value) : string :=
  match v with
  | VUndefined => "undefined"
  | VNull => "null"
  | VBool true => "true"
  | VBool false => "false"
  | VNumber n => pretty n
  | VString s => s
  | VRef _ => "[object Object]"
  end.

(** [a ?? b] *)
Definition nullish (a b : value) : value :=
  match a with
  | VUndefined | VNull => b
  | _ => a
  end.

Section WithJSON.

(** [JSON.parse] on a string: the structure of the value, or [None] for a
    [SyntaxError]; and [JSON.stringify] as the string [setItem] receives. *)
Variable JSON_parse : string -> option tree.
Variable JSON_stringify : tree -> string.

(** [JSON.parse(raw)]: the [null] of an absent item is read as the text
    "null"; the value parsed is made of fresh objects. *)
Definition parse (raw : option string) (h : heap) : outcome (heap * JS.value) :=
  match raw with
  | None => Ok (h, VNull)
  | Some s =>
      match JSON_parse s with
      | Some t => Ok (alloc h t)
      | None => Throw SyntaxError
      end
  end.

(** The function [Cache] installs as [options.created]. *)
Definition created_hook (cacheOptions : option CacheOptions) (key : string)
    (old : option hook) : hook := fun this w =>
  let currentValue := this_get this key in
  try (logs, k) <- makeKey this key cacheOptions;
  let w := console w logs in
  try raw <- getItem (store_of cacheOptions) k w;
  try (h1, parsed) <- parse raw (w_heap w);
  let w := with_heap w h1 in
  let v := nullish parsed currentValue in
  try (this, w) <-
    (if includes simpleTypes (typeof currentValue) || bool_decide (v = VNull)
     then Ok (this_set this key v, w)
     else
       let '(this, w) :=
         if negb (truthy currentValue) then
           let w := console w
             [Warn ("@Cache: prop [" +:+ key +:+ "] has no value: "
                    +:+ to_string currentValue +:+ ", saving as empty object")] in
           (this_set this key (VRef (length (w_heap w))),
            with_heap w (w_heap w ++ [[]]))
         else (this, w) in
       try (h2, m) <- merge (w_heap w) currentValue v;
       Ok (this_set this key m, with_heap w h2));
  match old with
  | Some f => f this w
  | None => Ok (this, w)
  end.

(** The handler of the watcher [Cache] registers. *)
Definition handler_fn (cacheOptions : option CacheOptions) (key : string)
  : handlerFn := fun this newValue w =>
  let w :=
    if set_string (cacheOptions ≫= globalDispatch)
    then dispatchEvent w (default "" (cacheOptions ≫= globalDispatch)) newValue
    else w in
  try (logs, k) <- makeKey this key cacheOptions;
  let w := console w logs in
  try (h1, filtered) <- modifier cacheOptions (w_heap w) newValue;
  try t <- covered (snapshot h1 filtered);
  try w <- setItem (store_of cacheOptions) k (JSON_stringify t) (with_heap w h1);
  Ok (this, w).

(** ** Component options and the watchers *)

Record WatchOptionsWithHandler : Type := {
  handler : handlerFn;
  wdeep : option bool;
  immediate : option bool
}.

(** What a component may declare for one watched key: an options object,
    a bare function, the name of a method, or an array of those. *)
Inductive watchItem : Type :=
  | WOptions (o : WatchOptionsWithHandler)
  | WFunction (f : handlerFn)
  | WMethod (name : string).

Inductive watchEntry : Type :=
  | Single (i : watchItem)
  | Array (l : list watchItem).

Record ComponentOptions : Type := {
  watch : option (gmap string watchEntry);
  created : option hook
}.

(** The watchers a component declares for [key], as a list. *)
Definition watchers_of (options : ComponentOptions) (key : string)
  : list watchItem :=
  match watch options ≫= (fun w => w !! key) with
  | None => []
  | Some (Single i) => [i]
  | Some (Array l) => l
  end.

(** [watch[key]] is, or is turned into, an array: it is absent, one options
    object, or an array already. *)
Definition pushable (options : ComponentOptions) (key : string) : bool :=
  match watch options ≫= (fun w => w !! key) with
  | Some (Single (WFunction _)) | Some (Single (WMethod _)) => false
  | _ => true
  end.

(** The watcher [Cache] pushes. *)
Definition cache_watcher (cacheOptions : option CacheOptions) (key : string)
  : WatchOptionsWithHandler :=
  {| handler := handler_fn cacheOptions key;
     wdeep := Some true;
     immediate := Some false |}.

(** The factory [Cache] hands to [createDecorator], applied to the options
    of the component.  [target] lists the members of the prototype whose
    value is not [undefined] (methods, accessors). *)
Definition Cache (cacheOptions : option CacheOptions) (target : list string)
    (key : string) (options : ComponentOptions)
  : outcome (list log_entry * ComponentOptions) :=
  if bool_decide (key ∈ target) then
    Ok ([Warn ("@Cache: this decorator can only be applied to class properties."
               +:+ String (ascii_of_nat 10)
                     "         attempted to add @Cache() decorator on field "
               +:+ JSONText.quoted key)],
        options)
  else
    let watch0 : gmap string watchEntry := default ∅ (watch options) in
    let watch1 :=
      match watch0 !! key with
      | Some (Single (WOptions o)) => <[key := Array [WOptions o]]> watch0
      | None => <[key := Array []]> watch0
      | Some _ => watch0
      end in
    let log1 :=
      if set_names (cacheOptions ≫= except) && set_names (cacheOptions ≫= only)
      then [Error "@Cache: 'except' and 'only' options are mutually exclusive"]
      else [] in
    let log2 :=
      match cacheOptions ≫= cacheStore with
      | Some s =>
          if negb (has_getItem s) || negb (has_setItem s)
          then [Error "@Cache: cacheStore must have getItem and setItem functions"]
          else []
      | None => []
      end in
    match watch1 !! key with
    | Some (Array l) =>
        Ok (log1 ++ log2,
            {| watch :=
                 Some (<[key := Array (l ++ [WOptions (cache_watcher cacheOptions key)])]>
                         watch1);
               created := Some (created_hook cacheOptions key (created options)) |})
    | _ => Throw (TypeError "watch[key].push is not a function")
    end.

(** [createDecorator]: the factory joins the constructor's [__decorators__],
    which the class-component library later applies to the options. *)
Definition createDecorator
    (factory : ComponentOptions -> string -> outcome (list log_entry * ComponentOptions))
    (decorators : list (ComponentOptions -> outcome (list log_entry * ComponentOptions)))
    (key : string)
  : list (ComponentOptions -> outcome (list log_entry * ComponentOptions)) :=
  decorators ++ [fun options => factory options key].

End WithJSON.

End Cache.

(** ** A component to run the hooks on

    The [Table] component of the README, with its [filter] property. *)

Module Scenario.
Import JS Cache.

Definition table (v : value) : Vue :=
  {| vnode := Some {| tag := Some "vue-component-3-Table" |};
     data := [("filter", v)] |}.

(** The world with heap [h] and, possibly, an item stored for the property. *)
Definition world_with (h : list (list (string * value))) (item : option string)
  : world :=
  {| w_heap := h;
     w_localStorage :=
       match item with
       | Some s => {[ "Table[filter]" := s ]}
       | None => ∅
       end;
     w_cacheStore := ∅;
     w_console := [];
     w_events := [] |}.

(** Options with both lists set, and options that ask for a shallow
    watcher the way the README documents it. *)
Definition both_lists : option CacheOptions :=
  Some {| globalDispatch := None; cacheKey := None; cacheStore := None;
          except := Some (One "page"); only := Some (Many ["limit"]);
          deep := None |}.

Definition shallow : option CacheOptions :=
  Some {| globalDispatch := None; cacheKey := Some "k"; cacheStore := None;
          except := None; only := None; deep := Some false |}.

(** A component that declares nothing, and one that watches [filter] with
    a bare function. *)
Definition plain : ComponentOptions := {| watch := None; created := None |}.

Definition function_watcher : ComponentOptions :=
  {| watch := Some {[ "filter" := Single (WFunction (fun this _ w => Ok (this, w))) ]};
     created := None |}.

End Scenario.

(** ** What a run leaves behind

    The items of the store a configuration uses, whether its two functions
    are there, and the event a change dispatches. *)

Module Observe.
Import JS Cache.

Definition items (st : store) (w : world) : gmap string string :=
  match st with
  | LocalStorage => w_localStorage w
  | CustomStore _ => w_cacheStore w
  end.

Definition can_get (st : store) : bool :=
  match st with
  | LocalStorage => true
  | CustomStore s => has_getItem s
  end.

Definition can_set (st : store) : bool :=
  match st with
  | LocalStorage => true
  | CustomStore s => has_setItem s
  end.

(** The event of [globalDispatch], when the option is set *)
Definition dispatched (cacheOptions : option CacheOptions) (detail : value)
  : list (string * value) :=
  if set_string (cacheOptions ≫= globalDispatch)
  then [(default "" (cacheOptions ≫= globalDispatch), detail)]
  else [].

(** The fields [Object.assign] copies from a value of structure [t]: those
    of an object, the characters of a string under their indices, nothing
    from another primitive. *)
Definition own_fields (t : tree) : list (string * tree) :=
  match t with
  | TObject fs => fs
  | TString s =>
      imap (fun i c => (pretty i, TString (String c EmptyString)))
           (list_ascii_of_string s)
  | _ => []
  end.

(** A custom store that lacks one of the two functions *)
Definition incomplete_store (cacheOptions : option CacheOptions) : bool :=
  match cacheOptions ≫= cacheStore with
  | Some s => negb (has_getItem s) || negb (has_setItem s)
  | None => false
  end.


End Observe.

(** ** More configurations to run the hooks on *)

Module Samples.
Import JS Cache.

(** Only the [limit] field is to be saved. *)
Definition only_limit : option CacheOptions :=
  Some {| globalDispatch := Some "filter-changed"; cacheKey := None;
          cacheStore := None; except := None; only := Some (One "limit");
          deep := None |}.

(** A custom store that is an empty object. *)
Definition empty_store : option CacheOptions :=
  Some {| globalDispatch := None; cacheKey := None;
          cacheStore := Some {| has_getItem := false; has_setItem := false |};
          except := None; only := None; deep := None |}.

Definition filter_value : list (string * value) :=
  [("categoryId", VNumber 2); ("page", VNumber 1); ("limit", VNumber 10)].

Definition filter_tree : list (string * tree) :=
  [("categoryId", TNumber 2); ("page", TNumber 1); ("limit", TNumber 10)].

End Samples.

(** * Properties *)

(** ** Following references: fuel and heap growth *)

Module JSFacts.
Import JS.

Lemma snapshot_fuel_ref (n : nat) (h : list (list (string * value))) (l : nat) :
  snapshot_fuel (S n) h (VRef l) =
  match h !! l with
  | None => None
  | Some o =>
      TObject <$>
        mapM (fun kv : string * value => pair kv.1 <$> snapshot_fuel n h kv.2) o
  end.
Proof. reflexivity. Qed.

Lemma snapshot_fuel_scalar (n m : nat) (h h' : list (list (string * value)))
    (v : value) :
  (forall l, v <> VRef l) -> snapshot_fuel n h v = snapshot_fuel m h' v.
Proof.
  destruct v as [| | | | |l]; intros Hv; try (by destruct n, m).
  by destruct (Hv l).
Qed.

(** More fuel and a longer heap read the same tree. *)
Lemma snapshot_fuel_mono (n : nat) :
  forall (m : nat) (h k : list (list (string * value))) (v : value) (t : tree),
    n <= m ->
    snapshot_fuel n h v = Some t ->
    snapshot_fuel m (h ++ k) v = Some t.
Proof.
  induction n as [|n IH]; intros m h k v t Hm Hs.
  - destruct v as [| | | | |l]; [..|discriminate];
      rewrite <- Hs; by apply snapshot_fuel_scalar.
  - destruct v as [| | | | |l];
      [rewrite <- Hs; by apply snapshot_fuel_scalar ..|].
    destruct m as [|m]; [lia|].
    rewrite snapshot_fuel_ref in *.
    destruct (h !! l) as [o|] eqn:Hl; [|discriminate].
    rewrite (lookup_app_l_Some _ _ _ _ Hl).
    destruct (mapM _ o) as [fs|] eqn:Hfs; [|discriminate].
    simpl in Hs. injection Hs as <-.
    apply mapM_Some in Hfs.
    erewrite (proj2 (mapM_Some _ _ _)); [reflexivity|].
    eapply Forall2_impl; [exact Hfs|].
    intros [k1 w] [k2 t2]; simpl.
    destruct (snapshot_fuel n h w) as [t'|] eqn:Hw; [|discriminate].
    intros [= <- <-].
    rewrite (IH m h k w t'); [reflexivity|lia|assumption].
Qed.

Lemma alloc_object (h : list (list (string * value))) (fs : list (string * tree)) :
  alloc h (TObject fs) =
  ((alloc_fields h fs).1 ++ [(alloc_fields h fs).2],
   VRef (length (alloc_fields h fs).1)).
Proof.
  simpl.
  match goal with
  | |- (let '(_, _) := ?f h fs in _) = _ =>
      assert (Hf : forall fs h, f h fs = alloc_fields h fs)
  end.
  { clear. induction fs as [|[k t] r IH]; intros h; simpl; [reflexivity|].
    destruct (alloc h t) as [h1 v]. by rewrite IH. }
  rewrite Hf. by destruct (alloc_fields h fs).
Qed.

Lemma value_above_le (n m : nat) (v : value) :
  n <= m -> value_above m v -> value_above n v.
Proof. destruct v; simpl; lia. Qed.

Lemma cells_above_le (n m : nat) (k : list (list (string * value))) :
  n <= m -> cells_above m k -> cells_above n k.
Proof.
  intros Hnm Hk. unfold cells_above in *.
  eapply Forall_impl; [exact Hk|]. intros o Ho.
  eapply Forall_impl; [exact Ho|]. intros kv. by apply value_above_le.
Qed.

Lemma alloc_fields_spec (fs : list (string * tree)) :
  Forall (fun f => alloc_ok f.2) fs -> alloc_fields_ok fs.
Proof.
  induction 1 as [|[key t] r Ht _ IH]; intros h h' o Hal; simpl in *.
  - injection Hal as <- <-. exists []. rewrite app_nil_r.
    repeat split; auto; constructor.
  - destruct (alloc h t) as [h1 v] eqn:Hv.
    destruct (alloc_fields h1 r) as [h2 o2] eqn:Hr.
    injection Hal as <- <-.
    destruct (Ht _ _ _ Hv) as (k1 & -> & Hh1 & Hs1 & Hv1 & Hk1).
    destruct (IH _ _ _ Hr) as (k2 & -> & Hh2 & Hs2 & Hv2 & Hk2).
    rewrite length_app in Hv2, Hk2.
    exists (k1 ++ k2). rewrite app_assoc, length_app.
    split; [reflexivity|]. split; [lia|]. split; [|split].
    + constructor.
      * simpl. split; [reflexivity|]. intros n Hn.
        apply snapshot_fuel_mono with (n := height t); [lia|exact Hs1].
      * eapply Forall2_impl; [exact Hs2|]. intros p f [E Hf].
        split; [exact E|]. intros n Hn. apply Hf. lia.
    + constructor; [exact Hv1|].
      eapply Forall_impl; [exact Hv2|]. intros kv.
      apply value_above_le. lia.
    + apply Forall_app. split; [exact Hk1|].
      eapply cells_above_le; [|exact Hk2]. lia.
Qed.

Lemma alloc_spec (t : tree) : alloc_ok t.
Proof.
  induction t as [| | | | |fs IH] using tree_ind';
    try (intros h h' v [= <- <-]; exists []; rewrite app_nil_r;
         repeat split; auto; constructor).
  intros h h' v. rewrite alloc_object.
  destruct (alloc_fields h fs) as [h1 o] eqn:Hfs. simpl. intros [= <- <-].
  destruct (alloc_fields_spec fs IH _ _ _ Hfs) as (k & -> & Hh & Hs & Hv & Hk).
  exists (k ++ [o]). rewrite app_assoc, !length_app. simpl.
  split; [reflexivity|]. split; [lia|]. split; [|split].
  -     rewrite (list_lookup_middle (h ++ k) [] o) by (rewrite length_app; lia).
    simpl.
    erewrite (proj2 (mapM_Some _ _ _)); [reflexivity|].
    eapply Forall2_impl; [exact Hs|]. intros [k1 w] [k2 t2] [E1 E2]; simpl in *.
    subst k2.
    rewrite (snapshot_fuel_mono _ _ (h ++ k) [o] w t2 (le_n _)); auto.
  - lia.
  - apply Forall_app. split; [exact Hk|]. constructor; [exact Hv|constructor].
Qed.

(** *** Clones *)

Lemma snapshot_scalar (h : list (list (string * value))) (v : value) (t : tree) :
  (forall l, v <> VRef l) -> snapshot h v = Some t -> alloc h t = (h, v).
Proof.
  intros Hv. destruct v as [| | | | |l]; try (by intros [= <-]).
  by destruct (Hv l).
Qed.

Lemma cloneDeep_scalar (h : list (list (string * value))) (v : value) :
  (forall l, v <> VRef l) -> cloneDeep h v = Some (h, v).
Proof.
  intros Hv. unfold cloneDeep.
  destruct v as [| | | | |l]; try reflexivity. by destruct (Hv l).
Qed.

(** An object read from the heap: its properties match the fields. *)
Lemma snapshot_ref_inv (h : list (list (string * value))) (l : nat) (t : tree) :
  snapshot h (VRef l) = Some t ->
  exists o fs, h !! l = Some o /\ t = TObject fs /\ fields_match h o fs.
Proof.
  unfold snapshot. rewrite snapshot_fuel_ref.
  destruct (h !! l) as [o|]; [|discriminate].
  destruct (mapM _ o) as [fs|] eqn:Hfs; [|discriminate].
  intros [= <-]. exists o, fs. repeat split.
  apply mapM_Some in Hfs. eapply Forall2_impl; [exact Hfs|].
  intros [k w] [k' t'] E; simpl in *.
  destruct (snapshot_fuel (length h) h w); [|discriminate].
  by injection E as <- <-.
Qed.

(** The converse, for an object on top of the heap it refers to. *)
Lemma snapshot_top (h1 : list (list (string * value)))
    (o : list (string * value)) (fs : list (string * tree)) :
  fields_match h1 o fs ->
  snapshot (h1 ++ [o]) (VRef (length h1)) = Some (TObject fs).
Proof.
  intros Hm. unfold snapshot. rewrite snapshot_fuel_ref.
  rewrite (list_lookup_middle h1 [] o) by reflexivity.
  erewrite (proj2 (mapM_Some _ _ _)); [reflexivity|].
  eapply Forall2_impl; [exact Hm|].
  intros [k w] [k' t'] [E1 E2]; simpl in *. subst k'.
  rewrite (snapshot_fuel_mono (length h1) _ h1 [o] w t'); auto.
  rewrite length_app. simpl. lia.
Qed.

(** The clone of an object: a new object on top of new cells. *)
Lemma cloneDeep_ref (h : list (list (string * value))) (l : nat)
    (fs : list (string * tree)) :
  snapshot h (VRef l) = Some (TObject fs) ->
  exists k o,
    cloneDeep h (VRef l) = Some ((h ++ k) ++ [o], VRef (length (h ++ k))) /\
    cells_above (length h) k /\
    Forall (fun kv : string * value => value_above (length h) kv.2) o /\
    fields_match (h ++ k) o fs.
Proof.
  intros Hs. unfold cloneDeep. rewrite Hs.
  change (alloc h <$> Some (TObject fs)) with (Some (alloc h (TObject fs))).
  rewrite alloc_object.
  destruct (alloc_fields h fs) as [h1 o] eqn:Hfs.
  destruct (alloc_fields_spec fs (proj2 (Forall_forall _ _)
              (fun f _ => alloc_spec f.2)) _ _ _ Hfs)
    as (k & -> & Hh & Hm & Hv & Hk).
  exists k, o. repeat split; auto.
  eapply Forall2_impl; [exact Hm|]. intros p f [E Hf]. split; [exact E|].
  apply Hf. rewrite length_app. lia.
Qed.

End JSFacts.

(** ** Property lists and the [delete] operator *)

Module PropFacts.
Import JS Cache JSFacts.

Lemma delete_prop_filter (k : string) (o : list (string * value)) :
  delete_prop k o = List.filter (fun p => negb (String.eqb p.1 k)) o.
Proof.
  induction o as [|[k' v] r IH]; simpl; [reflexivity|].
  destruct (String.eqb k' k); simpl; by rewrite IH.
Qed.

Lemma filter_filter {A} (f g : A -> bool) (l : list A) :
  List.filter f (List.filter g l) = List.filter (fun x => g x && f x) l.
Proof.
  induction l as [|x r IH]; simpl; [reflexivity|].
  destruct (g x); simpl; [destruct (f x)|]; by rewrite IH.
Qed.

(** Keeping the same keys on both sides keeps the match. *)
Lemma fields_match_filter (g : string -> bool) (h : list (list (string * value)))
    (o : list (string * value)) (fs : list (string * tree)) :
  fields_match h o fs ->
  fields_match h (List.filter (fun p => g p.1) o) (List.filter (fun f => g f.1) fs).
Proof.
  unfold fields_match. induction 1 as [|p f o fs [E Hs] _ IH]; simpl.
  - constructor.
  - rewrite <- E. destruct (g p.1); [constructor|]; auto.
Qed.

Lemma Forall_filter_keep {A} (P : A -> Prop) (g : A -> bool) (l : list A) :
  Forall P l -> Forall P (List.filter g l).
Proof.
  induction 1 as [|x r Hx _ IH]; simpl; [constructor|].
  destruct (g x); [constructor|]; auto.
Qed.

Lemma delete_property_top (h1 : list (list (string * value)))
    (o : list (string * value)) (k : string) :
  delete_property (h1 ++ [o]) (VRef (length h1)) k = Ok (h1 ++ [delete_prop k o]).
Proof.
  unfold delete_property.
  rewrite (list_lookup_middle h1 [] o) by reflexivity.
  rewrite insert_app_r_alt, Nat.sub_diag by lia. reflexivity.
Qed.

Lemma delete_unless_top (keep : string -> bool) (ps : list string) :
  forall (h1 : list (list (string * value))) (o : list (string * value)),
    delete_unless keep (h1 ++ [o]) (VRef (length h1)) ps =
    Ok (h1 ++ [List.filter (fun p => negb (mentions (deleted keep ps) p.1)) o]).
Proof.
  induction ps as [|p r IH]; intros h1 o; cbn [delete_unless].
  - assert (E : List.filter
                  (fun p : string * value => negb (mentions [] p.1)) o = o).
    { induction o as [|x o IHo]; simpl in *; [|rewrite IHo]; reflexivity. }
    unfold deleted. cbn [List.filter]. by rewrite E.
  - unfold deleted in *. cbn [List.filter].
    destruct (keep p) eqn:Hk; cbn [negb].
    + apply IH.
    + rewrite delete_property_top. cbn [obind]. rewrite IH.
      rewrite delete_prop_filter, filter_filter.
      do 3 f_equal. apply List.filter_ext. intros [k v]. simpl.
      by rewrite negb_orb.
Qed.

Lemma deleted_all (ps : list string) : deleted (fun _ => false) ps = ps.
Proof. induction ps as [|p r IH]; simpl; congruence. Qed.

Lemma mentions_In (ks : list string) (k : string) :
  mentions ks k = true <-> k ∈ ks.
Proof.
  unfold mentions. rewrite existsb_exists, list_elem_of_In. split.
  - intros (x & Hx & E). apply String.eqb_eq in E. by subst.
  - intros Hk. exists k. split; [exact Hk|apply String.eqb_refl].
Qed.

Lemma keys_match (h : list (list (string * value)))
    (o : list (string * value)) (fs : list (string * tree)) :
  fields_match h o fs -> keys o = keys fs.
Proof.
  unfold fields_match, keys. induction 1 as [|p f o fs [E _] _ IH]; simpl;
    congruence.
Qed.

(** A field of a tree from which fields were removed by name *)
Lemma field_filter (g : string -> bool) (fs : list (string * tree)) (k : string) :
  field k (TObject (List.filter (fun f => g f.1) fs)) =
  if g k then field k (TObject fs) else None.
Proof.
  unfold field. induction fs as [|[k' t] r IH]; simpl.
  - by destruct (g k).
  - destruct (g k') eqn:Hg; simpl; destruct (String.eqb k' k) eqn:E.
    + apply String.eqb_eq in E. subst. by rewrite Hg.
    + exact IH.
    + apply String.eqb_eq in E. subst. rewrite Hg in *. exact IH.
    + exact IH.
Qed.

(** *** [delete] on a number or a boolean does nothing *)
Lemma delete_unless_scalar (keep : string -> bool)
    (h : list (list (string * value))) (v : value) (ps : list string) :
  (exists b, v = VBool b) \/ (exists n, v = VNumber n) ->
  delete_unless keep h v ps = Ok h.
Proof.
  intros Hv. induction ps as [|p r IH]; simpl; [reflexivity|].
  destruct (keep p); [exact IH|].
  destruct Hv as [[b ->]|[n ->]]; simpl; apply IH; eauto.
Qed.

(** *** Reading after [set_prop] and [overlay] *)

Section Props.
Context {A : Type}.
Implicit Types (o src tgt : list (string * A)) (k : string).

Lemma get_prop_None o k : get_prop k o = None <-> k ∉ keys o.
Proof.
  induction o as [|[k' v] r IH]; simpl.
  - split; [intros _; apply not_elem_of_nil|done].
  - rewrite not_elem_of_cons. destruct (String.eqb k' k) eqn:E.
    + apply String.eqb_eq in E. subst. split; [done|]. by intros [? _].
    + apply String.eqb_neq in E. rewrite IH. split; [intros; split|]; naive_solver.
Qed.

Lemma get_set_prop o k k' (v : A) :
  get_prop k' (set_prop k v o) =
  if String.eqb k k' then Some v else get_prop k' o.
Proof.
  induction o as [|[k0 v0] r IH]; simpl.
  - reflexivity.
  - destruct (String.eqb k0 k) eqn:E0; simpl.
    + apply String.eqb_eq in E0. subst k0.
      by destruct (String.eqb k k').
    + rewrite IH. destruct (String.eqb k0 k') eqn:E1; [|reflexivity].
      apply String.eqb_eq in E1. subst k0. by rewrite String.eqb_sym, E0.
Qed.

Lemma keys_set_prop o k k' (v : A) :
  k' ∈ keys (set_prop k v o) <-> k' = k \/ k' ∈ keys o.
Proof.
  unfold keys. induction o as [|[k0 v0] r IH]; simpl.
  - rewrite list_elem_of_singleton. split; [by left|]. intros [?|H]; [done|].
    by apply elem_of_nil in H.
  - destruct (String.eqb k0 k) eqn:E0; simpl; rewrite !elem_of_cons.
    + apply String.eqb_eq in E0. subst k0. naive_solver.
    + rewrite IH. naive_solver.
Qed.

Lemma keys_overlay src : forall tgt k,
  k ∈ keys (overlay tgt src) <-> k ∈ keys tgt \/ k ∈ keys src.
Proof.
  unfold overlay. induction src as [|[k0 v0] r IH]; intros tgt k; simpl.
  - split; [by left|]. intros [?|H]; [done|]. by apply elem_of_nil in H.
  - rewrite IH, keys_set_prop, elem_of_cons. naive_solver.
Qed.

(** The source wins on the keys it has (each of them once). *)
Lemma get_overlay src : forall tgt k,
  NoDup (keys src) ->
  get_prop k (overlay tgt src) =
  match get_prop k src with
  | Some x => Some x
  | None => get_prop k tgt
  end.
Proof.
  unfold overlay. induction src as [|[k0 v0] r IH]; intros tgt k Hnd; simpl.
  - reflexivity.
  - apply NoDup_cons in Hnd as [Hk0 Hr]. rewrite (IH _ _ Hr), get_set_prop.
    destruct (String.eqb k0 k) eqn:E.
    + apply String.eqb_eq in E. subst k0.
      by rewrite (proj2 (get_prop_None r k) Hk0).
    + reflexivity.
Qed.

End Props.

(** *** Matching fields through [set_prop] and [overlay] *)

Lemma fields_match_mono (h k : list (list (string * value)))
    (o : list (string * value)) (fs : list (string * tree)) :
  fields_match h o fs -> fields_match (h ++ k) o fs.
Proof.
  unfold fields_match. intros Hm. eapply Forall2_impl; [exact Hm|].
  intros p f [E Hs]. split; [exact E|].
  apply snapshot_fuel_mono with (n := length h); [|exact Hs].
  rewrite length_app. lia.
Qed.

Lemma fields_match_set_prop (h : list (list (string * value)))
    (o : list (string * value)) (fs : list (string * tree))
    (k : string) (v : value) (t : tree) :
  fields_match h o fs ->
  snapshot_fuel (length h) h v = Some t ->
  fields_match h (set_prop k v o) (set_prop k t fs).
Proof.
  unfold fields_match. intros Hm Hv.
  induction Hm as [|[k1 v1] [k2 t2] o fs [E Hs] Hm IH]; simpl in *.
  - by repeat constructor.
  - subst k2. destruct (String.eqb k1 k); constructor; auto.
Qed.

Lemma fields_match_overlay (h : list (list (string * value)))
    (o2 : list (string * value)) (f2 : list (string * tree)) :
  fields_match h o2 f2 ->
  forall o1 f1, fields_match h o1 f1 ->
                fields_match h (overlay o1 o2) (overlay f1 f2).
Proof.
  unfold overlay.
  induction 1 as [|[k1 v1] [k2 t2] o2 f2 [E Hs] _ IH]; intros o1 f1 H1;
    simpl in *.
  - exact H1.
  - subst k2. apply IH. by apply fields_match_set_prop.
Qed.

(** A source without the key [__proto__] is written over the target as
    it is, and the prototype stays where it was. *)
Lemma assign_overlay (source : list (string * value)) :
  forall (p : proto) (target : list (string * value)),
    mentions (keys source) "__proto__" = false ->
    assign p target source = Some (p, overlay target source).
Proof.
  unfold overlay, mentions, keys.
  induction source as [|[k v] r IH]; intros p target Hk.
  - reflexivity.
  - cbn [map existsb fst] in Hk. apply orb_false_elim in Hk as [Hk Hr].
    rewrite String.eqb_sym in Hk.
    cbn [assign assign_one fold_left fst snd]. rewrite Hk. by apply IH.
Qed.

End PropFacts.

(** ** The value filters *)

Module FilterFacts.
Import JS Cache JSFacts PropFacts.

(** The names an [except] option excludes (none when it is not set). *)
Lemma purgeExceptList_object (h : list (list (string * value))) (l : nat)
    (fs : list (string * tree)) (except : option names) :
  snapshot h (VRef l) = Some (TObject fs) ->
  exists k o,
    purgeExceptList h (VRef l) except
      = Ok ((h ++ k) ++ [o], VRef (length (h ++ k))) /\
    cells_above (length h) k /\
    Forall (fun kv : string * value => value_above (length h) kv.2) o /\
    fields_match (h ++ k) o
      (if set_names except
       then without (from_option name_list [] except) fs else fs).
Proof.
  intros Hs. destruct (cloneDeep_ref h l fs Hs) as (k & o & Hc & Hk & Ho & Hm).
  unfold purgeExceptList. rewrite Hc. cbn [covered obind truthy].
  rewrite andb_true_r.
  destruct except as [[e|es]|]; cbn [set_names names_truthy from_option name_list].
  - destruct (String.eqb e ""); cbn [negb].
    + exists k, o. auto.
    + rewrite delete_property_top. cbn [obind].
      exists k, (delete_prop e o). split; [reflexivity|]. split; [exact Hk|].
      rewrite delete_prop_filter. split; [by apply Forall_filter_keep|].
      unfold without.
      rewrite (List.filter_ext (fun f : string * tree => negb (mentions [e] f.1))
                 (fun f => negb (String.eqb f.1 e))).
      * by apply (fields_match_filter (fun x => negb (String.eqb x e))).
      * intros [x t]. simpl. by rewrite orb_false_r.
  - rewrite delete_unless_top, deleted_all. cbn [obind].
    eexists k, _. split; [reflexivity|]. split; [exact Hk|].
    split; [by apply Forall_filter_keep|].
    by apply (fields_match_filter (fun x => negb (mentions es x))).
  - exists k, o. auto.
Qed.

Lemma purgeOnlyList_object (h : list (list (string * value))) (l : nat)
    (fs : list (string * tree)) (only : option names) :
  snapshot h (VRef l) = Some (TObject fs) ->
  exists k o (g : string -> bool),
    purgeOnlyList h (VRef l) only
      = Ok ((h ++ k) ++ [o], VRef (length (h ++ k))) /\
    cells_above (length h) k /\
    Forall (fun kv : string * value => value_above (length h) kv.2) o /\
    fields_match (h ++ k) o (List.filter (fun f => g f.1) fs) /\
    (set_names only = false -> List.filter (fun f => g f.1) fs = fs).
Proof.
  intros Hs. destruct (cloneDeep_ref h l fs Hs) as (k & o & Hc & Hk & Ho & Hm).
  assert (Hall : List.filter (fun f : string * tree => (fun _ => true) f.1) fs = fs).
  { clear. induction fs as [|f r IH]; simpl; congruence. }
  assert (Hnone : exists k0 o0 (g : string -> bool),
             Ok ((h ++ k) ++ [o], VRef (length (h ++ k)))
               = Ok ((h ++ k0) ++ [o0], VRef (length (h ++ k0))) /\
             cells_above (length h) k0 /\
             Forall (fun kv : string * value => value_above (length h) kv.2) o0 /\
             fields_match (h ++ k0) o0 (List.filter (fun f => g f.1) fs) /\
             (set_names only = false -> List.filter (fun f => g f.1) fs = fs)).
  { exists k, o, (fun _ => true). rewrite Hall. auto. }
  unfold purgeOnlyList. rewrite Hc. cbn [covered obind truthy].
  rewrite andb_true_r.
  destruct (set_names only) eqn:Hset; [|exact Hnone].
  unfold getOwnPropertyNames.
  rewrite (list_lookup_middle (h ++ k) [] o) by reflexivity.
  cbn [fmap option_fmap option_map covered obind].
  destruct only as [n|]; [|discriminate].
  assert (Hgo : forall keep,
    exists k0 o0 (g : string -> bool),
      (try h2 <- delete_unless keep ((h ++ k) ++ [o]) (VRef (length (h ++ k))) (keys o);
       Ok (h2, VRef (length (h ++ k))))
        = Ok ((h ++ k0) ++ [o0], VRef (length (h ++ k0))) /\
      cells_above (length h) k0 /\
      Forall (fun kv : string * value => value_above (length h) kv.2) o0 /\
      fields_match (h ++ k0) o0 (List.filter (fun f => g f.1) fs) /\
      (true = false -> List.filter (fun f => g f.1) fs = fs)).
  { intros keep. rewrite delete_unless_top. cbn [obind].
    eexists k, _, (fun x => negb (mentions (deleted keep (keys o)) x)).
    split; [reflexivity|]. split; [exact Hk|].
    split; [by apply Forall_filter_keep|]. split; [|discriminate].
    by apply (fields_match_filter
                (fun x => negb (mentions (deleted keep (keys o)) x))). }
  destruct n as [o1|os]; apply Hgo.
Qed.

(** A primitive value from which nothing has to be deleted comes back
    as it is. *)
Lemma purge_scalar (h : list (list (string * value))) (v : value)
    (names : option names) :
  (forall l, v <> VRef l) ->
  deletes_from_string names v = false ->
  purgeExceptList h v names = Ok (h, v) /\ purgeOnlyList h v names = Ok (h, v).
Proof.
  intros Hv Hd. unfold purgeExceptList, purgeOnlyList.
  rewrite (cloneDeep_scalar h v Hv). cbn [covered obind].
  destruct (set_names names && truthy v) eqn:E; [|by split].
  destruct v as [| | b | n | s | l]; try (simpl in E; rewrite andb_false_r in E; discriminate).
  - destruct names as [[e|es]|]; try discriminate; cbn [getOwnPropertyNames obind];
      rewrite ?delete_unless_scalar by eauto; by split.
  - destruct names as [[e|es]|]; try discriminate; cbn [getOwnPropertyNames obind];
      rewrite ?delete_unless_scalar by eauto; by split.
  - cbn [deletes_from_string] in Hd. congruence.
  - by destruct (Hv l).
Qed.

End FilterFacts.

Import JS Key Cache JSFacts PropFacts FilterFacts.

(** ** Claims about the value filters *)

(** C8 (as the code has it). For an object value and an exclude list,
    [purgeExceptList] returns a clone of the value.  When the list is an
    array of names, or one non-empty name, the clone has none of the named
    top-level fields, and every other top-level field of the original is
    there with the structure it had; naming a field the value does not
    have raises nothing (the call returns whatever the names are).  When
    the list is the empty name, the test [except && newValue] fails and
    the clone has every field of the original, one named by the empty
    string included. *)
Theorem purgeExceptList_excludes
    (h : list (list (string * value))) (l : nat) (fs : list (string * tree))
    (except : names) :
  snapshot h (VRef l) = Some (TObject fs) ->
  exists h' l' t',
    purgeExceptList h (VRef l) (Some except) = Ok (h', VRef l') /\
    snapshot h' (VRef l') = Some t' /\
    (names_truthy except = true ->
     (forall k, k ∈ name_list except -> field k t' = None) /\
     (forall k, k ∉ name_list except -> field k t' = field k (TObject fs))) /\
    (names_truthy except = false -> t' = TObject fs).
Proof.
  intros Hs.
  destruct (purgeExceptList_object h l fs (Some except) Hs)
    as (k & o & Hp & _ & _ & Hm).
  cbn [set_names from_option] in Hm.
  destruct (names_truthy except) eqn:Hset.
  - exists ((h ++ k) ++ [o]), (length (h ++ k)),
           (TObject (without (name_list except) fs)).
    split; [exact Hp|]. split; [by apply snapshot_top|].
    split; [intros _|discriminate].
    unfold without.
    split; intros x Hx;
      rewrite (field_filter (fun y => negb (mentions (name_list except) y))).
    + apply mentions_In in Hx. by rewrite Hx.
    + destruct (mentions (name_list except) x) eqn:E; [|reflexivity].
      apply mentions_In in E. contradiction.
  - exists ((h ++ k) ++ [o]), (length (h ++ k)), (TObject fs).
    split; [exact Hp|]. split; [by apply snapshot_top|].
    split; [discriminate|reflexivity].
Qed.

Lemma purgeExceptList_excludes_witness :
  exists h' l' t',
    purgeExceptList [[("a", VNumber 1); ("b", VNumber 2)]] (VRef 0)
                    (Some (Many ["a"; "zz"])) = Ok (h', VRef l') /\
    snapshot h' (VRef l') = Some t' /\
    (names_truthy (Many ["a"; "zz"]) = true ->
     (forall k, k ∈ name_list (Many ["a"; "zz"]) -> field k t' = None) /\
     (forall k, k ∉ name_list (Many ["a"; "zz"]) ->
        field k t' = field k (TObject [("a", TNumber 1); ("b", TNumber 2)]))) /\
    (names_truthy (Many ["a"; "zz"]) = false ->
     t' = TObject [("a", TNumber 1); ("b", TNumber 2)]).
Proof.
  apply (purgeExceptList_excludes
           [[("a", VNumber 1); ("b", VNumber 2)]] 0
           [("a", TNumber 1); ("b", TNumber 2)] (Many ["a"; "zz"]));
    reflexivity.
Defined.

(** The claim as written fails when the exclude list is the empty name:
    the field named by the empty string is named by the list, and the
    result still has it. *)
Lemma purgeExceptList_keeps_empty_name :
  exists h' l',
    purgeExceptList [[("", VNumber 1); ("b", VNumber 2)]] (VRef 0)
                    (Some (One "")) = Ok (h', VRef l') /\
    "" ∈ name_list (One "") /\
    (snapshot h' (VRef l') ≫= field "") = Some (TNumber 1).
Proof.
  eexists _, _. split; [reflexivity|]. split; [|reflexivity].
  apply list_elem_of_singleton. reflexivity.
Qed.

(** C10 (as the code has it). Whatever the list argument, also when it is
    absent or the value is falsy, [purgeExceptList] and [purgeOnlyList]
    return a clone of the value: the heap only grows (no object of the
    input is touched), the result refers to new objects only, and its
    structure is that of the input, without the deleted top-level fields.
    This holds for every value from which no deletion on a string is
    attempted: an object, a number, a boolean, [null], [undefined], and a
    string when the list is not set or the string is empty. *)
Theorem purge_returns_clone
    (h : list (list (string * value))) (v : value) (t : tree)
    (names : option names) :
  snapshot h v = Some t ->
  deletes_from_string names v = false ->
  returns_clone h v t names (purgeExceptList h v names) /\
  returns_clone h v t names (purgeOnlyList h v names).
Proof.
  intros Hs Hd.
  assert (Hscalar : (forall l, v <> VRef l) ->
            returns_clone h v t names (purgeExceptList h v names) /\
            returns_clone h v t names (purgeOnlyList h v names)).
  { intros Hv. destruct (purge_scalar h v names Hv Hd) as [-> ->].
    assert (R : returns_clone h v t names (Ok (h, v))).
    { exists [], v, t. rewrite app_nil_r. repeat split; auto.
      - destruct v as [| | | | |l]; simpl; auto. by destruct (Hv l).
      - constructor.
      - by left. }
    by split. }
  destruct v as [| | b | n | s | l]; try (apply Hscalar; congruence).
  destruct (snapshot_ref_inv h l t Hs) as (o0 & fs & _ & -> & _).
  split.
  - destruct (purgeExceptList_object h l fs names Hs) as (k & o & -> & Hk & Ho & Hm).
    exists (k ++ [o]), (VRef (length (h ++ k))),
      (TObject (if set_names names
                then without (from_option name_list [] names) fs else fs)).
    rewrite app_assoc. split; [reflexivity|].
    split; [simpl; rewrite length_app; lia|].
    split; [apply Forall_app; split; [exact Hk|by constructor]|].
    split; [by apply snapshot_top|].
    split.
    + destruct (set_names names); [|by left].
      right. exists fs, (fun x => negb (mentions (from_option name_list [] names) x)).
      by split.
    + cbn [truthy]. rewrite andb_true_r. by intros ->.
  - destruct (purgeOnlyList_object h l fs names Hs)
      as (k & o & g & -> & Hk & Ho & Hm & Hnone).
    exists (k ++ [o]), (VRef (length (h ++ k))),
      (TObject (List.filter (fun f => g f.1) fs)).
    rewrite app_assoc. split; [reflexivity|].
    split; [simpl; rewrite length_app; lia|].
    split; [apply Forall_app; split; [exact Hk|by constructor]|].
    split; [by apply snapshot_top|].
    split.
    + right. exists fs, g. by split.
    + cbn [truthy]. rewrite andb_true_r. intros E. by rewrite (Hnone E).
Qed.

Lemma purge_returns_clone_witness :
  snapshot [[("a", VNumber 1); ("b", VNumber 2)]] (VRef 0)
    = Some (TObject [("a", TNumber 1); ("b", TNumber 2)]) /\
  deletes_from_string (Some (One "a")) (VRef 0) = false /\
  returns_clone [[("a", VNumber 1); ("b", VNumber 2)]] (VRef 0)
    (TObject [("a", TNumber 1); ("b", TNumber 2)]) (Some (One "a"))
    (purgeExceptList [[("a", VNumber 1); ("b", VNumber 2)]] (VRef 0)
       (Some (One "a"))) /\
  returns_clone [[("a", VNumber 1); ("b", VNumber 2)]] (VRef 0)
    (TObject [("a", TNumber 1); ("b", TNumber 2)]) (Some (One "a"))
    (purgeOnlyList [[("a", VNumber 1); ("b", VNumber 2)]] (VRef 0)
       (Some (One "a"))).
Proof.
  split; [reflexivity|]. split; [reflexivity|].
  apply (purge_returns_clone [[("a", VNumber 1); ("b", VNumber 2)]] (VRef 0)
           (TObject [("a", TNumber 1); ("b", TNumber 2)]) (Some (One "a")));
    reflexivity.
Defined.

(** C10, as stated, fails on a string: the module is strict code, where
    deleting an own property of a string primitive raises.  [purgeOnlyList]
    asked to keep only "x" of the string "a" tries to delete its index 0. *)
Lemma purgeOnlyList_string_throws :
  purgeOnlyList [] (VString "a") (Some (One "x"))
    = Throw (TypeError "Cannot delete property") /\
  purgeExceptList [] (VString "a") (Some (One "length"))
    = Throw (TypeError "Cannot delete property") /\
  ~ returns_clone [] (VString "a") (TString "a") (Some (One "x"))
      (purgeOnlyList [] (VString "a") (Some (One "x"))).
Proof.
  split; [reflexivity|]. split; [reflexivity|].
  intros (k & v' & t' & E & _). discriminate E.
Qed.

(** ** Key resolution *)

Module KeyFacts.
Import Key.

Lemma append_cons (c : ascii) (s t : string) :
  String c s +:+ t = String c (s +:+ t).
Proof. reflexivity. Qed.

Lemma append_empty_l (t : string) : "" +:+ t = t.
Proof. reflexivity. Qed.

Lemma append_empty_r (s : string) : s +:+ "" = s.
Proof. induction s as [|c r IH]; [reflexivity|]. by rewrite append_cons, IH. Qed.

Lemma append_assoc (s t u : string) : (s +:+ t) +:+ u = s +:+ t +:+ u.
Proof.
  induction s as [|c r IH]; [reflexivity|]. by rewrite !append_cons, IH.
Qed.

Lemma drop_digits_run (ds rest : string) :
  all_digits ds = true ->
  drop_digits (ds +:+ String "-" rest) = String "-" rest.
Proof.
  induction ds as [|c r IH]; [reflexivity|].
  intros [Hc Hr]%andb_prop. rewrite append_cons. cbn [drop_digits].
  rewrite Hc. by apply IH.
Qed.

(** The expression matches a [pattern] at the start of a text. *)
Lemma match_here_pattern (ds rest : string) :
  all_digits ds = true -> ds <> "" ->
  match_here (pattern ds +:+ rest) = Some rest.
Proof.
  intros Hd Hne. unfold pattern, match_here.
  rewrite !append_assoc.
  change (strip_prefix "vue-component-" ("vue-component-" +:+ ds +:+ "-" +:+ rest))
    with (Some (ds +:+ "-" +:+ rest)).
  change ("-" +:+ rest) with (String "-" rest).
  destruct ds as [|c r]; [done|].
  apply andb_prop in Hd as [Hc Hr].
  rewrite append_cons, Hc. cbn [drop_digits].
  rewrite Hc, drop_digits_run by exact Hr. reflexivity.
Qed.

(** The leftmost match is the one removed. *)
Lemma replace_first_leftmost (pre rest rest' : string) :
  unmatched_in pre rest = true ->
  match_here rest = Some rest' ->
  replace_first (pre +:+ rest) = pre +:+ rest'.
Proof.
  intros Hu Hm. induction pre as [|c p IH].
  - rewrite !append_empty_l. destruct rest; cbn [replace_first]; by rewrite Hm.
  - cbn [unmatched_in] in Hu. rewrite !append_cons in *.
    cbn [replace_first].
    destruct (match_here (String c (p +:+ rest))); [discriminate|].
    f_equal. by apply IH.
Qed.

Lemma replace_first_unmatched (tag : string) :
  unmatched_in tag "" = true -> replace_first tag = tag.
Proof.
  induction tag as [|c p IH]; [reflexivity|].
  cbn [unmatched_in replace_first]. rewrite append_empty_r.
  destruct (match_here (String c p)); [discriminate|].
  intros Hu. f_equal. by apply IH.
Qed.

End KeyFacts.

Import KeyFacts.

(** C6 (as the code has it). [makeKey] returns a configured, non-empty
    [cacheKey] unchanged; an empty one counts as none.  Otherwise, on an
    instance that has a [$vnode]: without a tag (absent or empty) it warns
    and returns the bare property name; with a tag
    "vue-component-<digits>-NAME" the key is "NAME[propertyName]", the raw
    tag standing in for an empty NAME; and a tag that holds no such run is
    used as it is. *)
Theorem makeKey_resolves (vm : Vue) (key : string) (options : option CacheOptions) :
  (forall k, options ≫= cacheKey = Some k -> k <> "" ->
     makeKey vm key options = Ok ([], k)) /\
  (set_string (options ≫= cacheKey) = false ->
   forall node,
     vnode vm = Some node -> set_string (tag node) = false ->
     makeKey vm key options
       = Ok ([Warn "@Cache: vm.$vnode.tag was null"], key)) /\
  (set_string (options ≫= cacheKey) = false ->
   forall ds rest,
     vnode vm = Some {| tag := Some (pattern ds +:+ rest) |} ->
     all_digits ds = true -> ds <> "" ->
     makeKey vm key options =
       Ok ([], (if decide (rest = "") then pattern ds +:+ rest else rest)
               +:+ "[" +:+ key +:+ "]")) /\
  (set_string (options ≫= cacheKey) = false ->
   forall t,
     vnode vm = Some {| tag := Some t |} -> t <> "" ->
     unmatched_in t "" = true ->
     makeKey vm key options = Ok ([], t +:+ "[" +:+ key +:+ "]")).
Proof.
  assert (Hset : forall s, s <> "" -> set_string (Some s) = true).
  { intros s Hs. simpl. destruct (String.eqb s "") eqn:E; [|reflexivity].
    apply String.eqb_eq in E. contradiction. }
  assert (Hlen : forall s, (String.length s =? 0)%nat = bool_decide (s = "")).
  { intros [|c r]; reflexivity. }
  unfold makeKey. repeat split.
  - intros k Hk Hne. rewrite Hk, (Hset k Hne). reflexivity.
  - intros -> node -> ->. reflexivity.
  - intros -> ds rest -> Hd Hne. cbn [tag].
    rewrite Hset by (unfold pattern; discriminate).
    cbn [negb from_option]; unfold id.
    assert (Hr : replace_first (pattern ds +:+ rest) = rest).
    { apply (replace_first_leftmost "" (pattern ds +:+ rest) rest);
        [reflexivity|by apply match_here_pattern]. }
    rewrite Hr, Hlen.
    destruct (decide (rest = "")) as [E|E];
      [rewrite bool_decide_eq_true_2|rewrite bool_decide_eq_false_2]; done.
  - intros -> t -> Hne Hu. cbn [tag].
    rewrite (Hset t Hne); cbn [negb from_option]; unfold id.
    rewrite (replace_first_unmatched t Hu), Hlen.
    by rewrite bool_decide_eq_false_2.
Qed.

Lemma makeKey_resolves_witness :
  makeKey {| vnode := Some {| tag := Some "vue-component-12-Table" |};
             data := [] |} "filter" None = Ok ([], "Table[filter]").
Proof.
  exact (proj1 (proj2 (proj2
           (makeKey_resolves
              {| vnode := Some {| tag := Some "vue-component-12-Table" |};
                 data := [] |} "filter" None)))
           eq_refl "12" "Table" eq_refl eq_refl
           (fun E : "12" = "" => eq_ind "12" (fun s => match s with
                                                     | EmptyString => False
                                                     | String _ _ => True
                                                     end) I "" E)).
Defined.

(** C6, as stated, fails on a [cacheKey] that is configured but empty: it
    is not returned, the key is derived from the tag. *)
Lemma makeKey_ignores_empty_cacheKey :
  cacheKey {| globalDispatch := None; cacheKey := Some ""; cacheStore := None;
              except := None; only := None; deep := None |} = Some "" /\
  makeKey {| vnode := Some {| tag := Some "vue-component-3-T" |}; data := [] |}
          "p"
          (Some {| globalDispatch := None; cacheKey := Some ""; cacheStore := None;
                   except := None; only := None; deep := None |})
    = Ok ([], "T[p]") /\
  makeKey {| vnode := Some {| tag := Some "vue-component-3-T" |}; data := [] |}
          "p"
          (Some {| globalDispatch := None; cacheKey := Some ""; cacheStore := None;
                   except := None; only := None; deep := None |})
    <> Ok ([], "").
Proof. repeat split. discriminate. Qed.

(** ** The filter chosen by the options *)

(** C2 (as the code has it). Without an [except] and without an [only]
    option the modifier is the identity: it hands back the very value it
    was given, the same reference, and allocates nothing.  The value is
    equal to the input because it is the input; no copy is made. *)
Theorem modifier_without_filter (cacheOptions : option CacheOptions)
    (h : list (list (string * value))) (v : value) :
  set_names (cacheOptions ≫= except) = false ->
  set_names (cacheOptions ≫= only) = false ->
  modifier cacheOptions h v = Ok (h, v).
Proof. unfold modifier. by intros -> ->. Qed.

Lemma modifier_without_filter_witness :
  modifier None [[("a", VNumber 1)]] (VRef 0) = Ok ([[("a", VNumber 1)]], VRef 0).
Proof.
  apply (modifier_without_filter None [[("a", VNumber 1)]] (VRef 0));
    reflexivity.
Defined.

(** C2, as stated, fails: with no filter the result is the same
    reference as the input. *)
Lemma modifier_none_same_reference :
  ~ (forall (h h' : list (list (string * value))) (v v' : value),
       modifier None h v = Ok (h', v') -> v' <> v).
Proof.
  intros H.
  exact (H [[("a", VNumber 1)]] [[("a", VNumber 1)]] (VRef 0) (VRef 0)
           eq_refl eq_refl).
Qed.

(** ** Registering the watcher *)

Module CacheFacts.

Section WithJSON.
Variable JSON_parse : string -> option tree.
Variable JSON_stringify : tree -> string.

Lemma watchers_of_insert (wm : gmap string watchEntry) (c : option hook)
    (key k' : string) (l : list watchItem) :
  watchers_of {| watch := Some (<[key := Array l]> wm); created := c |} k' =
  if decide (key = k') then l
  else watchers_of {| watch := Some wm; created := c |} k'.
Proof.
  unfold watchers_of. simpl. destruct (decide (key = k')) as [->|Hne].
  - by rewrite lookup_insert_eq.
  - by rewrite lookup_insert_ne.
Qed.

(** On a member that is a data property, with a watcher entry that is or
    becomes an array, [Cache] appends its watcher and wraps [created]. *)
Lemma Cache_ok (cacheOptions : option CacheOptions) (target : list string)
    (key : string) (options : ComponentOptions) :
  bool_decide (key ∈ target) = false ->
  pushable options key = true ->
  exists logs options',
    Cache JSON_parse JSON_stringify cacheOptions target key options
      = Ok (logs, options') /\
    watchers_of options' key =
      watchers_of options key
        ++ [WOptions (cache_watcher JSON_stringify cacheOptions key)] /\
    (forall k', k' <> key -> watchers_of options' k' = watchers_of options k') /\
    created options' =
      Some (created_hook JSON_parse cacheOptions key (created options)) /\
    (set_names (cacheOptions ≫= except) && set_names (cacheOptions ≫= only) = true ->
     Error "@Cache: 'except' and 'only' options are mutually exclusive" ∈ logs).
Proof.
  intros Hkey Hpush. unfold Cache. rewrite Hkey.
  destruct options as [[wm|] c]; unfold pushable, watchers_of in *; simpl in *.
  - destruct (wm !! key) as [[[o|f|m]|l]|] eqn:E; try discriminate;
      rewrite ?lookup_insert_eq, ?E; eexists _, _; (split; [reflexivity|]);
      simpl; rewrite ?lookup_insert_eq; (split; [reflexivity|]);
      (split; [intros k' Hk'; by rewrite ?lookup_insert_ne by done|]);
      (split; [reflexivity|]); intros ->; apply elem_of_app; left;
      apply list_elem_of_singleton; reflexivity.
  - rewrite lookup_empty, lookup_insert_eq. eexists _, _. split; [reflexivity|].
    simpl. rewrite lookup_insert_eq. split; [reflexivity|].
    split; [intros k' Hk'; by rewrite !lookup_insert_ne, lookup_empty by done|].
    split; [reflexivity|]. intros ->. apply elem_of_app. left.
    apply list_elem_of_singleton. reflexivity.
Qed.

(** A watcher declared as a bare function or as the name of a method is
    left as it is, and [push] is called on it. *)
Lemma Cache_not_pushable (cacheOptions : option CacheOptions)
    (target : list string) (key : string) (options : ComponentOptions) :
  bool_decide (key ∈ target) = false ->
  pushable options key = false ->
  Cache JSON_parse JSON_stringify cacheOptions target key options
    = Throw (TypeError "watch[key].push is not a function").
Proof.
  intros Hkey Hpush. unfold Cache. rewrite Hkey.
  destruct options as [[wm|] c]; unfold pushable in *; simpl in *;
    [|discriminate].
  destruct (wm !! key) as [[[o|f|m]|l]|] eqn:E; try discriminate;
    by rewrite E.
Qed.

End WithJSON.

End CacheFacts.

Import CacheFacts.

(** C4 (what the code does). The watcher [Cache] registers is deep whatever
    the options say: [deep: true] is a constant of the watcher, and a
    [deep] option, false included, is never read. *)
Theorem watcher_is_always_deep
    (JSON_parse : string -> option tree) (JSON_stringify : tree -> string)
    (cacheOptions : option CacheOptions) (target : list string) (key : string)
    (options options' : ComponentOptions) (logs : list log_entry) :
  bool_decide (key ∈ target) = false ->
  Cache JSON_parse JSON_stringify cacheOptions target key options
    = Ok (logs, options') ->
  exists ws w,
    watchers_of options' key = ws ++ [WOptions w] /\
    handler w = handler_fn JSON_stringify cacheOptions key /\
    wdeep w = Some true.
Proof.
  intros Hkey Hc. destruct (pushable options key) eqn:Hpush.
  - destruct (Cache_ok JSON_parse JSON_stringify cacheOptions target key options
                Hkey Hpush) as (logs0 & options0 & Hc0 & Hw & _).
    rewrite Hc in Hc0. injection Hc0 as <- <-.
    exists (watchers_of options key), (cache_watcher JSON_stringify cacheOptions key).
    by repeat split.
  - rewrite (Cache_not_pushable JSON_parse JSON_stringify cacheOptions target
               key options Hkey Hpush) in Hc. discriminate.
Qed.

Lemma watcher_is_always_deep_witness :
  deep <$> Scenario.shallow = Some (Some false) /\
  exists options' logs ws w,
    Cache JSONText.parse JSONText.stringify Scenario.shallow [] "filter"
          Scenario.plain = Ok (logs, options') /\
    watchers_of options' "filter" = ws ++ [WOptions w] /\
    handler w = handler_fn JSONText.stringify Scenario.shallow "filter" /\
    wdeep w = Some true.
Proof.
  split; [reflexivity|].
  destruct (Cache JSONText.parse JSONText.stringify Scenario.shallow [] "filter"
              Scenario.plain) as [[logs options']| |] eqn:E;
    [|discriminate E..].
  exists options', logs.
  destruct (watcher_is_always_deep JSONText.parse JSONText.stringify
              Scenario.shallow [] "filter" Scenario.plain
              options' logs eq_refl E) as (ws & w & H).
  exists ws, w. split; [reflexivity|exact H].
Defined.

(** C9 (what the code does). A watcher declared for the property as a bare
    function or as the name of a method is neither wrapped in an array nor
    replaced: [push] is called on it and the decorator raises, so no
    handler of that component is registered at all. *)
Theorem push_on_function_watcher
    (JSON_parse : string -> option tree) (JSON_stringify : tree -> string)
    (cacheOptions : option CacheOptions) (target : list string) (key : string)
    (wm : gmap string watchEntry) (c : option hook) (i : watchItem) :
  bool_decide (key ∈ target) = false ->
  wm !! key = Some (Single i) ->
  (forall o, i <> WOptions o) ->
  Cache JSON_parse JSON_stringify cacheOptions target key
        {| watch := Some wm; created := c |}
    = Throw (TypeError "watch[key].push is not a function").
Proof.
  intros Hkey Hwm Hi. apply Cache_not_pushable; [exact Hkey|].
  unfold pushable. simpl. rewrite Hwm.
  destruct i as [o|f|m]; [by destruct (Hi o)|reflexivity..].
Qed.

Lemma push_on_function_watcher_witness :
  Cache JSONText.parse JSONText.stringify None [] "filter"
        Scenario.function_watcher
    = Throw (TypeError "watch[key].push is not a function").
Proof.
  apply (push_on_function_watcher JSONText.parse JSONText.stringify None []
           "filter" _ None (WFunction (fun this _ w => Ok (this, w))));
    [reflexivity|reflexivity|intros o; discriminate].
Defined.

(** ** Restoring at creation *)

Module HookFacts.

Lemma snapshot_mono (h k : list (list (string * value))) (v : value) (t : tree) :
  snapshot h v = Some t -> snapshot (h ++ k) v = Some t.
Proof.
  unfold snapshot. intros Hs.
  apply snapshot_fuel_mono with (n := S (length h)); [|exact Hs].
  rewrite length_app. lia.
Qed.

(** A tree just built reads back from the heap it was built in. *)
Lemma snapshot_alloc (h h' : list (list (string * value))) (t : tree) (v : value) :
  alloc h t = (h', v) ->
  snapshot h' v = Some t /\ exists k, h' = h ++ k.
Proof.
  intros Ha. destruct (alloc_spec t h h' v Ha) as (k & -> & Hh & Hs & _).
  split; [|by exists k].
  unfold snapshot.
  rewrite <- (app_nil_r (h ++ k)) at 2.
  apply snapshot_fuel_mono with (n := height t); [|exact Hs].
  rewrite length_app. lia.
Qed.

(** [merge] of two objects: a new object with the fields of the first,
    overwritten and completed by those of the second. *)
Lemma merge_objects (h : list (list (string * value))) (la lb : nat)
    (fa fb : list (string * tree)) :
  snapshot h (VRef la) = Some (TObject fa) ->
  snapshot h (VRef lb) = Some (TObject fb) ->
  mentions (keys fa) "__proto__" = false ->
  mentions (keys fb) "__proto__" = false ->
  exists o,
    merge h (VRef la) (VRef lb) = Ok (h ++ [o], VRef (length h)) /\
    snapshot (h ++ [o]) (VRef (length h))
      = Some (TObject (overlay (overlay [] fa) fb)).
Proof.
  intros Ha Hb Hpa Hpb.
  destruct (snapshot_ref_inv h la _ Ha) as (oa & fa' & Hla & [= <-] & Hma).
  destruct (snapshot_ref_inv h lb _ Hb) as (ob & fb' & Hlb & [= <-] & Hmb).
  unfold merge, own_enumerable. rewrite Hla, Hlb. cbn [default from_option id].
  rewrite <- (keys_match _ _ _ Hma) in Hpa.
  rewrite <- (keys_match _ _ _ Hmb) in Hpb.
  rewrite (assign_overlay oa _ _ Hpa). cbn [covered obind].
  rewrite (assign_overlay ob _ _ Hpb). cbn [covered obind].
  eexists. split; [reflexivity|].
  apply snapshot_top. apply fields_match_overlay; [exact Hmb|].
  apply fields_match_overlay; [exact Hma|]. constructor.
Qed.

Lemma getItem_console (st : store) (k : string) (w : world)
    (l : list log_entry) :
  getItem st k (console w l) = getItem st k w.
Proof. by destruct st. Qed.

Lemma this_get_set (this : Vue) (key : string) (v : value) :
  this_get (this_set this key v) key = v.
Proof.
  unfold this_get, this_set. simpl.
  by rewrite get_set_prop, String.eqb_refl.
Qed.

End HookFacts.

Import HookFacts.

(** C3 (as the code has it). A stored string that is not valid JSON makes
    the restore step raise the [SyntaxError] of [JSON.parse] to the
    caller: nothing catches it, the property is not set and the previous
    [created] hook is not run. *)
Theorem invalid_JSON_is_raised
    (JSON_parse : string -> option tree)
    (cacheOptions : option CacheOptions) (key : string) (old : option hook)
    (this : Vue) (w : world) (logs : list log_entry) (k s : string) :
  makeKey this key cacheOptions = Ok (logs, k) ->
  getItem (store_of cacheOptions) k w = Ok (Some s) ->
  JSON_parse s = None ->
  created_hook JSON_parse cacheOptions key old this w = Throw SyntaxError.
Proof.
  intros Hkey Hget Hparse. unfold created_hook. rewrite Hkey. cbn [obind].
  rewrite getItem_console, Hget. cbn [obind]. unfold parse.
  by rewrite Hparse.
Qed.

Import Scenario.

Lemma invalid_JSON_is_raised_witness :
  created_hook JSONText.parse None "filter" None (table (VNumber 0))
               (world_with [] (Some "{oops"))
    = Throw SyntaxError.
Proof.
  apply (invalid_JSON_is_raised JSONText.parse None "filter" None
           (table (VNumber 0)) (world_with [] (Some "{oops"))
           [] "Table[filter]" "{oops");
    reflexivity.
Defined.

(** C3, as stated, fails: the restore step raises on a text that is not
    JSON, and so does not leave the property with its default. *)
Lemma created_raises_on_invalid_JSON :
  JSONText.parse "not json" = None /\
  ~ (exists this' w',
       created_hook JSONText.parse None "filter" None (table (VString "dflt"))
                    (world_with [] (Some "not json")) = Ok (this', w') /\
       this_get this' "filter" = VString "dflt").
Proof.
  split; [reflexivity|]. intros (this' & w' & E & _). discriminate E.
Qed.

(** C1 (as the code has it). The test is on the default, not on the stored
    value: when the property's current (default) value is of a scalar type
    ([undefined], number, string, boolean), or when the value [v] (the
    parsed stored value, or the default when the item is absent or is
    [null]) is [null], [v] is set onto the property as it is, and no merged
    object is built: the heap is the one [JSON.parse] left. *)
Theorem scalar_default_is_replaced
    (JSON_parse : string -> option tree)
    (cacheOptions : option CacheOptions) (key : string)
    (this : Vue) (w : world) (logs : list log_entry) (k : string)
    (raw : option string)
    (h1 : list (list (string * value))) (parsed : value) :
  makeKey this key cacheOptions = Ok (logs, k) ->
  getItem (store_of cacheOptions) k w = Ok raw ->
  parse JSON_parse raw (w_heap w) = Ok (h1, parsed) ->
  includes simpleTypes (typeof (this_get this key))
  || bool_decide (nullish parsed (this_get this key) = VNull) = true ->
  exists this' w',
    created_hook JSON_parse cacheOptions key None this w = Ok (this', w') /\
    this_get this' key = nullish parsed (this_get this key) /\
    w_heap w' = h1.
Proof.
  intros Hkey Hget Hparse Hcond. unfold created_hook. rewrite Hkey.
  cbn [obind]. rewrite getItem_console, Hget. cbn [obind].
  change (w_heap (console w logs)) with (w_heap w). rewrite Hparse.
  cbn [obind]. rewrite Hcond. cbn [obind].
  eexists _, _. split; [reflexivity|]. split; [apply this_get_set|reflexivity].
Qed.

Lemma scalar_default_is_replaced_witness :
  exists this' w',
    created_hook JSONText.parse None "filter" None (table (VNumber 0))
                 (world_with [] (Some "5")) = Ok (this', w') /\
    this_get this' "filter" = VNumber 5 /\
    w_heap w' = [].
Proof.
  apply (scalar_default_is_replaced JSONText.parse None "filter"
           (table (VNumber 0)) (world_with [] (Some "5")) [] "Table[filter]"
           (Some "5") [] (VNumber 5)); reflexivity.
Defined.

(** C1, as stated, fails: a stored scalar 5 does not replace an object
    default; the property gets a new object with the fields of the
    default. *)
Lemma stored_scalar_over_object_default :
  merge [[("a", VNumber 1)]] (VRef 0) (VNumber 5)
    = Ok ([[("a", VNumber 1)]; [("a", VNumber 1)]], VRef 1) /\
  exists this' w',
    created_hook JSONText.parse None "filter" None (table (VRef 0))
                 (world_with [[("a", VNumber 1)]] (Some "5")) = Ok (this', w') /\
    this_get this' "filter" <> VNumber 5 /\
    snapshot (w_heap w') (this_get this' "filter")
      = Some (TObject [("a", TNumber 1)]).
Proof.
  split; [reflexivity|].
  eexists _, _. split; [reflexivity|]. split; [discriminate|reflexivity].
Qed.

(** C5 (as the code has it). When the property's default is an object and
    the stored text parses to an object (each with its keys once, and
    neither with a key named [__proto__]), the property is set to a new
    object whose keys are those of the default together with those of the
    stored value; on every key the stored value has, its field stands, and
    the default's fields fill in the others. *)
Theorem restore_merges_objects
    (JSON_parse : string -> option tree)
    (cacheOptions : option CacheOptions) (key : string)
    (this : Vue) (w : world) (logs : list log_entry) (k s : string) (la : nat)
    (fd fs : list (string * tree)) :
  this_get this key = VRef la ->
  snapshot (w_heap w) (VRef la) = Some (TObject fd) ->
  NoDup (keys fd) ->
  mentions (keys fd) "__proto__" = false ->
  makeKey this key cacheOptions = Ok (logs, k) ->
  getItem (store_of cacheOptions) k w = Ok (Some s) ->
  JSON_parse s = Some (TObject fs) ->
  NoDup (keys fs) ->
  mentions (keys fs) "__proto__" = false ->
  exists this' w' fm,
    created_hook JSON_parse cacheOptions key None this w = Ok (this', w') /\
    snapshot (w_heap w') (this_get this' key) = Some (TObject fm) /\
    (forall k, k ∈ keys fm <-> k ∈ keys fd \/ k ∈ keys fs) /\
    (forall k, field k (TObject fm) =
               match field k (TObject fs) with
               | Some x => Some x
               | None => field k (TObject fd)
               end).
Proof.
  intros Hcur Hd Hnd Hpd Hkey Hget Hparse Hns Hps. unfold created_hook.
  rewrite Hkey. cbn [obind].
  rewrite getItem_console, Hget. cbn [obind]. unfold parse. rewrite Hparse.
  change (w_heap (console w logs)) with (w_heap w).
  destruct (alloc (w_heap w) (TObject fs)) as [h1 vb] eqn:Ha.
  destruct (snapshot_alloc _ _ _ _ Ha) as (Hb & kb & ->).
  rewrite alloc_object in Ha. injection Ha as Hh1 <-.
  set (lb := length (alloc_fields (w_heap w) fs).1) in *.
  cbn [obind]. rewrite Hcur. cbn [nullish typeof truthy negb].
  change (includes simpleTypes "object") with false.
  rewrite bool_decide_eq_false_2 by discriminate. cbn [orb].
  change (w_heap (with_heap (console w logs) (w_heap w ++ kb)))
    with (w_heap w ++ kb).
  destruct (merge_objects (w_heap w ++ kb) la lb fd fs
              (snapshot_mono _ kb _ _ Hd) Hb Hpd Hps) as (o & -> & Hm).
  cbn [obind].
  eexists _, _, (overlay (overlay [] fd) fs).
  split; [reflexivity|]. rewrite this_get_set.
  split; [exact Hm|]. split.
  - intros x. rewrite !keys_overlay. split; [intros [[H|H]|H]|]; auto.
    + by apply elem_of_nil in H.
    + intros [H|H]; auto.
  - intros x. unfold field. rewrite (get_overlay _ _ _ Hns).
    destruct (get_prop x fs); [reflexivity|].
    rewrite (get_overlay _ _ _ Hnd). by destruct (get_prop x fd).
Qed.

Lemma restore_merges_objects_witness :
  exists this' w' fm,
    created_hook JSONText.parse None "filter" None (table (VRef 0))
      (world_with [[("a", VNumber 1); ("b", VNumber 2)]]
                  (Some (JSONText.stringify (TObject [("b", TNumber 9)]))))
      = Ok (this', w') /\
    snapshot (w_heap w') (this_get this' "filter") = Some (TObject fm) /\
    (forall k, k ∈ keys fm <->
               k ∈ keys [("a", TNumber 1); ("b", TNumber 2)]
               \/ k ∈ keys [("b", TNumber 9)]) /\
    (forall k, field k (TObject fm) =
               match field k (TObject [("b", TNumber 9)]) with
               | Some x => Some x
               | None => field k (TObject [("a", TNumber 1); ("b", TNumber 2)])
               end).
Proof.
  apply (restore_merges_objects JSONText.parse None "filter" (table (VRef 0))
           (world_with [[("a", VNumber 1); ("b", VNumber 2)]]
              (Some (JSONText.stringify (TObject [("b", TNumber 9)]))))
           [] "Table[filter]"
           (JSONText.stringify (TObject [("b", TNumber 9)])) 0
           [("a", TNumber 1); ("b", TNumber 2)] [("b", TNumber 9)]);
    try reflexivity; unfold keys; simpl; repeat constructor;
    rewrite ?list_elem_of_singleton, ?elem_of_nil; try discriminate; tauto.
Defined.

(** C5, as stated, fails on a stored object that has a key named
    [__proto__]: [Object.assign] hands the key to the setter inherited
    from [Object.prototype], so the merged object has no such key, and its
    keys are not the union. *)
Lemma restore_drops_proto_key :
  JSONText.parse
    (JSONText.stringify (TObject [("__proto__", TObject [("x", TNumber 1)])]))
    = Some (TObject [("__proto__", TObject [("x", TNumber 1)])]) /\
  exists this' w',
    created_hook JSONText.parse None "filter" None (table (VRef 0))
      (world_with [[("a", VNumber 1)]]
         (Some (JSONText.stringify
                  (TObject [("__proto__", TObject [("x", TNumber 1)])]))))
      = Ok (this', w') /\
    snapshot (w_heap w') (this_get this' "filter")
      = Some (TObject [("a", TNumber 1)]) /\
    ~ (forall k, k ∈ keys [("a", TNumber 1)] <->
                 k ∈ keys [("a", TNumber 1)]
                 \/ k ∈ keys [("__proto__", TObject [("x", TNumber 1)])]).
Proof.
  split; [reflexivity|].
  eexists _, _. split; [reflexivity|]. split; [reflexivity|].
  intros H. specialize (H "__proto__"). unfold keys in H. simpl in H.
  assert (Hin : "__proto__" ∈ ["a"]).
  { apply H. right. apply list_elem_of_singleton. reflexivity. }
  apply list_elem_of_singleton in Hin. discriminate.
Qed.

(** The example of the specification: stored [{b:9}] over the default
    [{a:1, b:2}] gives [{a:1, b:9}]. *)
Example restore_b9 :
  (fun r => match r with
            | Ok (this', w') => snapshot (w_heap w') (this_get this' "filter")
            | _ => None
            end)
    (created_hook JSONText.parse None "filter" None (table (VRef 0))
       (world_with [[("a", VNumber 1); ("b", VNumber 2)]]
                   (Some (JSONText.stringify (TObject [("b", TNumber 9)])))))
  = Some (TObject [("a", TNumber 1); ("b", TNumber 9)]).
Proof. reflexivity. Qed.

(** * Further properties of the decorator *)

(** ** The [only] filter *)

Module OnlyFacts.

(** Deleting, among the keys of an object, those that are not kept leaves
    the properties whose key is kept. *)
Lemma filter_deleted_keys {A} (keep : string -> bool) (o : list (string * A)) :
  List.filter (fun p => negb (mentions (deleted keep (keys o)) p.1)) o =
  List.filter (fun p => keep p.1) o.
Proof.
  apply List.filter_ext_in. intros [k v] Hin. simpl.
  destruct (keep k) eqn:Hk.
  - destruct (mentions (deleted keep (keys o)) k) eqn:E; [|reflexivity].
    apply mentions_In, list_elem_of_In, List.filter_In in E as [_ E].
    by rewrite Hk in E.
  - assert (E : mentions (deleted keep (keys o)) k = true); [|by rewrite E].
    apply mentions_In, list_elem_of_In, List.filter_In. split.
    + apply (List.in_map fst) in Hin. exact Hin.
    + by rewrite Hk.
Qed.

(** The clone [purgeOnlyList] returns for an object, when the list is set *)
Lemma purgeOnlyList_object_exact (h : list (list (string * value))) (l : nat)
    (fs : list (string * tree)) (only : names) :
  snapshot h (VRef l) = Some (TObject fs) ->
  names_truthy only = true ->
  exists k o,
    purgeOnlyList h (VRef l) (Some only)
      = Ok ((h ++ k) ++ [o], VRef (length (h ++ k))) /\
    fields_match (h ++ k) o (List.filter (fun f => only_keep only f.1) fs).
Proof.
  intros Hs Hset.
  destruct (cloneDeep_ref h l fs Hs) as (k & o & Hc & Hk & Ho & Hm).
  unfold purgeOnlyList. rewrite Hc. cbn [covered obind truthy set_names].
  rewrite Hset. cbn [andb]. unfold getOwnPropertyNames.
  rewrite (list_lookup_middle (h ++ k) [] o) by reflexivity.
  cbn [fmap option_fmap option_map covered obind].
  assert (Hgo :
    (try h2 <- delete_unless (only_keep only) ((h ++ k) ++ [o])
                 (VRef (length (h ++ k))) (keys o);
     Ok (h2, VRef (length (h ++ k))))
    = Ok ((h ++ k) ++ [List.filter (fun p => only_keep only p.1) o],
          VRef (length (h ++ k)))).
  { rewrite delete_unless_top. cbn [obind]. by rewrite filter_deleted_keys. }
  exists k, (List.filter (fun p => only_keep only p.1) o). split.
  - destruct only as [o1|os]; exact Hgo.
  - by apply (fields_match_filter (only_keep only)).
Qed.

End OnlyFacts.

Import OnlyFacts.

(** X1. For an object value and an [only] list (an array of names, or one
    non-empty name), [purgeOnlyList] returns an object that keeps every
    listed, non-empty-named top-level field with the structure it had, and
    has no field that is not listed. *)
Theorem purgeOnlyList_keeps_listed
    (h : list (list (string * value))) (l : nat) (fs : list (string * tree))
    (only : names) :
  snapshot h (VRef l) = Some (TObject fs) ->
  names_truthy only = true ->
  exists h' l' t',
    purgeOnlyList h (VRef l) (Some only) = Ok (h', VRef l') /\
    snapshot h' (VRef l') = Some t' /\
    (forall k, k ∈ name_list only -> k <> "" ->
               field k t' = field k (TObject fs)) /\
    (forall k, k ∉ name_list only -> field k t' = None).
Proof.
  intros Hs Hset.
  destruct (purgeOnlyList_object_exact h l fs only Hs Hset) as (k & o & Hp & Hm).
  exists ((h ++ k) ++ [o]), (length (h ++ k)),
    (TObject (List.filter (fun f => only_keep only f.1) fs)).
  split; [exact Hp|]. split; [by apply snapshot_top|].
  assert (Hkeep : forall x, only_keep only x = true <-> x ∈ name_list only /\ x <> "").
  { intros x. destruct only as [o1|os]; simpl in *.
    - rewrite String.eqb_eq, list_elem_of_singleton. split; [|tauto].
      intros ->. split; [reflexivity|]. intros ->. discriminate.
    - unfold found_truthy, set_string.
      destruct (find (fun o0 => String.eqb o0 x) os) as [y|] eqn:E.
      + apply List.find_some in E as [Hin E]. apply String.eqb_eq in E. subst y.
        apply list_elem_of_In in Hin.
        destruct (String.eqb x "") eqn:E; simpl.
        * apply String.eqb_eq in E. split; [discriminate|tauto].
        * apply String.eqb_neq in E. tauto.
      + split; [discriminate|]. intros [Hin _]. apply list_elem_of_In in Hin.
        pose proof (List.find_none _ _ E x Hin) as Hx. simpl in Hx.
        by rewrite String.eqb_refl in Hx. }
  split; intros x Hx; [intros Hne|]; rewrite (field_filter (only_keep only)).
  - by rewrite (proj2 (Hkeep x) (conj Hx Hne)).
  - destruct (only_keep only x) eqn:E; [|reflexivity].
    apply Hkeep in E as [E _]. contradiction.
Qed.

Lemma purgeOnlyList_keeps_listed_witness :
  exists h' l' t',
    purgeOnlyList [[("a", VNumber 1); ("b", VNumber 2)]] (VRef 0)
                  (Some (Many ["b"; "zz"])) = Ok (h', VRef l') /\
    snapshot h' (VRef l') = Some t' /\
    (forall k, k ∈ ["b"; "zz"] -> k <> "" ->
               field k t' = field k (TObject [("a", TNumber 1); ("b", TNumber 2)])) /\
    (forall k, k ∉ ["b"; "zz"] -> field k t' = None).
Proof.
  apply (purgeOnlyList_keeps_listed
           [[("a", VNumber 1); ("b", VNumber 2)]] 0
           [("a", TNumber 1); ("b", TNumber 2)] (Many ["b"; "zz"]));
    reflexivity.
Defined.

(** X2. With an array as the [only] list, a field whose name is the empty
    string is deleted even when the array lists it: [find] returns the
    name found, and the empty name is falsy. *)
Theorem purgeOnlyList_drops_empty_name
    (h : list (list (string * value))) (l : nat) (fs : list (string * tree))
    (os : list string) :
  snapshot h (VRef l) = Some (TObject fs) ->
  exists h' l' t',
    purgeOnlyList h (VRef l) (Some (Many os)) = Ok (h', VRef l') /\
    snapshot h' (VRef l') = Some t' /\
    field "" t' = None.
Proof.
  intros Hs.
  destruct (purgeOnlyList_object_exact h l fs (Many os) Hs eq_refl)
    as (k & o & Hp & Hm).
  exists ((h ++ k) ++ [o]), (length (h ++ k)),
    (TObject (List.filter (fun f => only_keep (Many os) f.1) fs)).
  split; [exact Hp|]. split; [by apply snapshot_top|].
  rewrite (field_filter (only_keep (Many os))).
  assert (E : only_keep (Many os) "" = false); [|by rewrite E].
  simpl. unfold found_truthy, set_string.
  destruct (find (fun o0 => String.eqb o0 "") os) as [y|] eqn:E; [|reflexivity].
  apply List.find_some in E as [_ E]. by rewrite E.
Qed.

Lemma purgeOnlyList_drops_empty_name_witness :
  exists h' l' t',
    purgeOnlyList [[("", VNumber 1); ("b", VNumber 2)]] (VRef 0)
                  (Some (Many [""; "b"])) = Ok (h', VRef l') /\
    snapshot h' (VRef l') = Some t' /\
    field "" t' = None.
Proof.
  apply (purgeOnlyList_drops_empty_name
           [[("", VNumber 1); ("b", VNumber 2)]] 0
           [("", TNumber 1); ("b", TNumber 2)] [""; "b"]); reflexivity.
Defined.

(** ** The handler of the watcher *)

Module HandlerFacts.
Import Observe.

Lemma delete_property_heap (v : value) (p : string) :
  (forall l, v <> VRef l) ->
  forall h h', delete_property h v p = Ok h' -> h' = h.
Proof.
  intros Hv h h'. destruct v as [| | b | n | s | l]; simpl; try discriminate;
    try (by intros [= <-]).
  - destruct (string_own s p); [discriminate|by intros [= <-]].
  - by destruct (Hv l).
Qed.

Lemma delete_unless_heap (keep : string -> bool) (v : value) (ps : list string) :
  (forall l, v <> VRef l) ->
  forall h h', delete_unless keep h v ps = Ok h' -> h' = h.
Proof.
  intros Hv. induction ps as [|p r IH]; intros h h'; cbn [delete_unless].
  - by intros [= <-].
  - destruct (keep p); [apply IH|].
    destruct (delete_property h v p) as [h1| |] eqn:E; cbn [obind];
      try discriminate.
    apply (delete_property_heap v p Hv) in E. subst h1. apply IH.
Qed.

(** On a primitive value the two filters leave the heap as it is. *)
Lemma purge_scalar_heap (h h' : list (list (string * value))) (v v' : value)
    (names : option names) :
  (forall l, v <> VRef l) ->
  (purgeExceptList h v names = Ok (h', v') -> h' = h) /\
  (purgeOnlyList h v names = Ok (h', v') -> h' = h).
Proof.
  intros Hv. unfold purgeExceptList, purgeOnlyList.
  rewrite (cloneDeep_scalar h v Hv). cbn [covered obind].
  destruct (set_names names && truthy v); [|split; by intros [= <- _]].
  split.
  - destruct names as [[e|es]|]; [| |by intros [= <- _]].
    + destruct (delete_property h v e) as [h1| |] eqn:E; cbn [obind];
        try discriminate.
      intros [= <- _]. by apply (delete_property_heap v e Hv) in E.
    + destruct (delete_unless _ h v es) as [h1| |] eqn:E; cbn [obind];
        try discriminate.
      intros [= <- _]. by apply (delete_unless_heap _ v es Hv) in E.
  - destruct (getOwnPropertyNames h v) as [ps| |]; cbn [obind];
      try discriminate.
    destruct names as [[e|es]|]; [| |by intros [= <- _]].
    + destruct (delete_unless _ h v ps) as [h1| |] eqn:E; cbn [obind];
        try discriminate.
      intros [= <- _]. by apply (delete_unless_heap _ v ps Hv) in E.
    + destruct (delete_unless _ h v ps) as [h1| |] eqn:E; cbn [obind];
        try discriminate.
      intros [= <- _]. by apply (delete_unless_heap _ v ps Hv) in E.
Qed.

(** Whatever the filter and the value, a filter that returns has only
    added cells to the heap. *)
Lemma modifier_heap_grows (cacheOptions : option CacheOptions)
    (h h' : list (list (string * value))) (v v' : value) :
  modifier cacheOptions h v = Ok (h', v') -> exists k, h' = h ++ k.
Proof.
  assert (Hpurge : forall names,
            (purgeExceptList h v names = Ok (h', v') -> exists k, h' = h ++ k) /\
            (purgeOnlyList h v names = Ok (h', v') -> exists k, h' = h ++ k)).
  { intros names.
    assert (Hscalar : (forall l, v <> VRef l) ->
              (purgeExceptList h v names = Ok (h', v') -> exists k, h' = h ++ k) /\
              (purgeOnlyList h v names = Ok (h', v') -> exists k, h' = h ++ k)).
    { intros Hv. destruct (purge_scalar_heap h h' v v' names Hv) as [H1 H2].
      split; intros E; exists []; rewrite app_nil_r; auto. }
    destruct v as [| | b | n | s | l]; try (apply Hscalar; congruence).
    destruct (snapshot h (VRef l)) as [t|] eqn:Hs.
    - destruct (snapshot_ref_inv h l t Hs) as (o0 & fs & _ & -> & _).
      destruct (purgeExceptList_object h l fs names Hs) as (k & o & -> & _).
      destruct (purgeOnlyList_object h l fs names Hs) as (k2 & o2 & g & -> & _).
      split; intros [= <- <-];
        [exists (k ++ [o])|exists (k2 ++ [o2])]; by rewrite app_assoc.
    - unfold purgeExceptList, purgeOnlyList, cloneDeep. rewrite Hs.
      split; discriminate. }
  unfold modifier.
  destruct (set_names (cacheOptions ≫= except)); [apply Hpurge|].
  destruct (set_names (cacheOptions ≫= only)); [apply Hpurge|].
  intros [= <- <-]. exists []. by rewrite app_nil_r.
Qed.

Section WithJSON.
Variable JSON_stringify : tree -> string.

(** One run of the handler, from the key and from what the filter
    returns. *)
Lemma handler_run (cacheOptions : option CacheOptions) (key : string)
    (this : Vue) (v : value) (w : world) (logs : list log_entry) (k : string)
    (h1 : list (list (string * value))) (v' : value) (t' : tree) :
  makeKey this key cacheOptions = Ok (logs, k) ->
  modifier cacheOptions (w_heap w) v = Ok (h1, v') ->
  snapshot h1 v' = Some t' ->
  can_set (store_of cacheOptions) = true ->
  exists w',
    handler_fn JSON_stringify cacheOptions key this v w = Ok (this, w') /\
    items (store_of cacheOptions) w' =
      <[k := JSON_stringify t']> (items (store_of cacheOptions) w) /\
    w_heap w' = h1 /\
    w_events w' = w_events w ++ dispatched cacheOptions v /\
    w_console w' = w_console w ++ logs /\
    (store_of cacheOptions = LocalStorage -> w_cacheStore w' = w_cacheStore w) /\
    (store_of cacheOptions <> LocalStorage ->
     w_localStorage w' = w_localStorage w).
Proof.
  intros Hkey Hm Hs Hset. unfold handler_fn, dispatched.
  rewrite Hkey. cbn [obind].
  destruct (set_string (cacheOptions ≫= globalDispatch)).
  - change (w_heap (console (dispatchEvent w _ v) logs)) with (w_heap w).
    rewrite Hm. cbn [obind]. rewrite Hs. cbn [covered obind].
    destruct (store_of cacheOptions) as [|st]; cbn [setItem can_set] in *.
    + eexists. split; [reflexivity|]. simpl. by rewrite ?app_nil_r.
    + rewrite Hset. eexists. split; [reflexivity|]. simpl.
      by rewrite ?app_nil_r.
  - change (w_heap (console w logs)) with (w_heap w).
    rewrite Hm. cbn [obind]. rewrite Hs. cbn [covered obind].
    destruct (store_of cacheOptions) as [|st]; cbn [setItem can_set] in *.
    + eexists. split; [reflexivity|]. simpl. by rewrite ?app_nil_r.
    + rewrite Hset. eexists. split; [reflexivity|]. simpl.
      by rewrite ?app_nil_r.
Qed.

(** A run that returns went through every step. *)
Lemma handler_inv (cacheOptions : option CacheOptions) (key : string)
    (this this' : Vue) (v : value) (w w' : world) :
  handler_fn JSON_stringify cacheOptions key this v w = Ok (this', w') ->
  exists logs k h1 v' t',
    makeKey this key cacheOptions = Ok (logs, k) /\
    modifier cacheOptions (w_heap w) v = Ok (h1, v') /\
    snapshot h1 v' = Some t' /\
    can_set (store_of cacheOptions) = true.
Proof.
  unfold handler_fn.
  destruct (makeKey this key cacheOptions) as [[logs k]| |]; cbn [obind];
    [|destruct (set_string (cacheOptions ≫= globalDispatch)); discriminate..].
  assert (Hgo : forall w0, w_heap w0 = w_heap w ->
    (try (h1, filtered) <- modifier cacheOptions (w_heap (console w0 logs)) v;
     try t <- covered (snapshot h1 filtered);
     try w1 <- setItem (store_of cacheOptions) k (JSON_stringify t)
                 (with_heap (console w0 logs) h1);
     Ok (this, w1)) = Ok (this', w') ->
    exists logs0 k0 h1 v' t',
      Ok (logs, k) = Ok (logs0, k0) /\
      modifier cacheOptions (w_heap w) v = Ok (h1, v') /\
      snapshot h1 v' = Some t' /\
      can_set (store_of cacheOptions) = true).
  { intros w0 E. change (w_heap (console w0 logs)) with (w_heap w0). rewrite E.
    destruct (modifier cacheOptions (w_heap w) v) as [[h1 v']| |] eqn:Hm;
      cbn [obind]; try discriminate.
    destruct (snapshot h1 v') as [t'|] eqn:Hsn; cbn [covered obind];
      try discriminate.
    intros Hset. exists logs, k, h1, v', t'. split; [reflexivity|].
    split; [reflexivity|]. split; [exact Hsn|].
    destruct (store_of cacheOptions) as [|st]; [reflexivity|].
    cbn [setItem can_set] in *. by destruct (has_setItem st). }
  destruct (set_string (cacheOptions ≫= globalDispatch)); by apply Hgo.
Qed.

End WithJSON.

End HandlerFacts.

Import Observe HandlerFacts.

(** X3. With an [except] list set and a store that has [setItem], a change
    of the property to an object writes, under the key of [makeKey], the
    text of that object without the excluded top-level fields.  The
    object of the component keeps all its fields, and the event of
    [globalDispatch], when configured, carries the unfiltered value. *)
Theorem handler_saves_without_excluded
    (JSON_stringify : tree -> string)
    (cacheOptions : option CacheOptions) (key : string) (this : Vue)
    (logs : list log_entry) (k : string)
    (l : nat) (fs : list (string * tree)) (w : world) (ex : names) :
  makeKey this key cacheOptions = Ok (logs, k) ->
  cacheOptions ≫= except = Some ex ->
  names_truthy ex = true ->
  can_set (store_of cacheOptions) = true ->
  snapshot (w_heap w) (VRef l) = Some (TObject fs) ->
  exists w',
    handler_fn JSON_stringify cacheOptions key this (VRef l) w = Ok (this, w') /\
    items (store_of cacheOptions) w' !! k
      = Some (JSON_stringify (TObject (without (name_list ex) fs))) /\
    snapshot (w_heap w') (VRef l) = Some (TObject fs) /\
    w_events w' = w_events w ++ dispatched cacheOptions (VRef l).
Proof.
  intros Hkey Hex Hset Hcan Hs.
  destruct (purgeExceptList_object (w_heap w) l fs (Some ex) Hs)
    as (k0 & o & Hp & _ & _ & Hm).
  cbn [set_names from_option] in Hm. rewrite Hset in Hm.
  assert (Hmod : modifier cacheOptions (w_heap w) (VRef l)
                 = Ok ((w_heap w ++ k0) ++ [o], VRef (length (w_heap w ++ k0)))).
  { unfold modifier. rewrite Hex. cbn [set_names]. by rewrite Hset. }
  destruct (handler_run JSON_stringify cacheOptions key this (VRef l) w _ _ _ _ _
              Hkey Hmod (snapshot_top _ _ _ Hm) Hcan)
    as (w' & Hrun & Hitems & Hheap & Hev & _).
  exists w'. split; [exact Hrun|]. split; [|split; [|exact Hev]].
  - by rewrite Hitems, lookup_insert_eq.
  - rewrite Hheap, <- app_assoc. by apply snapshot_mono.
Qed.

Lemma handler_saves_without_excluded_witness :
  exists w',
    handler_fn JSONText.stringify Scenario.both_lists "filter"
      (Scenario.table (VRef 0)) (VRef 0)
      (Scenario.world_with [[("categoryId", VNumber 2); ("page", VNumber 1)]] None)
      = Ok (Scenario.table (VRef 0), w') /\
    items (store_of Scenario.both_lists) w' !! "Table[filter]"
      = Some (JSONText.stringify
                (TObject (without (name_list (One "page"))
                            [("categoryId", TNumber 2); ("page", TNumber 1)]))) /\
    snapshot (w_heap w') (VRef 0)
      = Some (TObject [("categoryId", TNumber 2); ("page", TNumber 1)]) /\
    w_events w' =
      w_events (Scenario.world_with
                  [[("categoryId", VNumber 2); ("page", VNumber 1)]] None)
      ++ dispatched Scenario.both_lists (VRef 0).
Proof.
  apply (handler_saves_without_excluded JSONText.stringify Scenario.both_lists
           "filter" (Scenario.table (VRef 0)) [] "Table[filter]" 0
           [("categoryId", TNumber 2); ("page", TNumber 1)]
           (Scenario.world_with
              [[("categoryId", VNumber 2); ("page", VNumber 1)]] None)
           (One "page")); reflexivity.
Defined.

(** X4. With no [except] list, an [only] list set and a store that has
    [setItem], a change of the property to an object writes the text of
    that object reduced to its listed fields; the object of the component
    keeps all its fields. *)
Theorem handler_saves_only_listed
    (JSON_stringify : tree -> string)
    (cacheOptions : option CacheOptions) (key : string) (this : Vue)
    (logs : list log_entry) (k : string)
    (l : nat) (fs : list (string * tree)) (w : world) (on : names) :
  makeKey this key cacheOptions = Ok (logs, k) ->
  set_names (cacheOptions ≫= except) = false ->
  cacheOptions ≫= only = Some on ->
  names_truthy on = true ->
  can_set (store_of cacheOptions) = true ->
  snapshot (w_heap w) (VRef l) = Some (TObject fs) ->
  exists w',
    handler_fn JSON_stringify cacheOptions key this (VRef l) w = Ok (this, w') /\
    items (store_of cacheOptions) w' !! k
      = Some (JSON_stringify
                (TObject (List.filter (fun f => only_keep on f.1) fs))) /\
    snapshot (w_heap w') (VRef l) = Some (TObject fs).
Proof.
  intros Hkey Hex Hon Hset Hcan Hs.
  destruct (purgeOnlyList_object_exact (w_heap w) l fs on Hs Hset)
    as (k0 & o & Hp & Hm).
  assert (Hmod : modifier cacheOptions (w_heap w) (VRef l)
                 = Ok ((w_heap w ++ k0) ++ [o], VRef (length (w_heap w ++ k0)))).
  { unfold modifier. rewrite Hex, Hon. cbn [set_names]. by rewrite Hset. }
  destruct (handler_run JSON_stringify cacheOptions key this (VRef l) w _ _ _ _ _
              Hkey Hmod (snapshot_top _ _ _ Hm) Hcan)
    as (w' & Hrun & Hitems & Hheap & _).
  exists w'. split; [exact Hrun|]. split.
  - by rewrite Hitems, lookup_insert_eq.
  - rewrite Hheap, <- app_assoc. by apply snapshot_mono.
Qed.

(** X5. With neither list set and a store that has [setItem], a change
    writes the text of the whole new value under the key of [makeKey], and
    allocates nothing. *)
Theorem handler_saves_whole_value
    (JSON_stringify : tree -> string)
    (cacheOptions : option CacheOptions) (key : string) (this : Vue)
    (logs : list log_entry) (k : string)
    (v : value) (t : tree) (w : world) :
  makeKey this key cacheOptions = Ok (logs, k) ->
  set_names (cacheOptions ≫= except) = false ->
  set_names (cacheOptions ≫= only) = false ->
  can_set (store_of cacheOptions) = true ->
  snapshot (w_heap w) v = Some t ->
  exists w',
    handler_fn JSON_stringify cacheOptions key this v w = Ok (this, w') /\
    items (store_of cacheOptions) w' !! k = Some (JSON_stringify t) /\
    w_heap w' = w_heap w.
Proof.
  intros Hkey Hex Hon Hcan Hs.
  assert (Hmod : modifier cacheOptions (w_heap w) v = Ok (w_heap w, v)).
  { unfold modifier. by rewrite Hex, Hon. }
  destruct (handler_run JSON_stringify cacheOptions key this v w _ _ _ _ _
              Hkey Hmod Hs Hcan) as (w' & Hrun & Hitems & Hheap & _).
  exists w'. split; [exact Hrun|]. split; [|exact Hheap].
  by rewrite Hitems, lookup_insert_eq.
Qed.

(** X6. A handler run that returns has written one key, the one [makeKey]
    gave, and nothing else: the component instance is as it was, every
    other item of the store is as it was, the store not in use is
    untouched, and the heap has only grown (no object of the component was
    modified). *)
Theorem handler_writes_one_key
    (JSON_stringify : tree -> string)
    (cacheOptions : option CacheOptions) (key : string)
    (this this' : Vue) (v : value) (w w' : world) :
  handler_fn JSON_stringify cacheOptions key this v w = Ok (this', w') ->
  this' = this /\
  (exists logs k,
     makeKey this key cacheOptions = Ok (logs, k) /\
     forall k', k' <> k ->
       items (store_of cacheOptions) w' !! k'
       = items (store_of cacheOptions) w !! k') /\
  (store_of cacheOptions = LocalStorage -> w_cacheStore w' = w_cacheStore w) /\
  (store_of cacheOptions <> LocalStorage -> w_localStorage w' = w_localStorage w) /\
  exists k, w_heap w' = w_heap w ++ k.
Proof.
  intros Hrun.
  destruct (handler_inv JSON_stringify cacheOptions key this this' v w w' Hrun)
    as (logs & k & h1 & v' & t' & Hkey & Hmod & Hs & Hcan).
  destruct (handler_run JSON_stringify cacheOptions key this v w _ _ _ _ _
              Hkey Hmod Hs Hcan)
    as (w0 & Hrun0 & Hitems & Hheap & _ & _ & Hloc & Hcus).
  rewrite Hrun in Hrun0. injection Hrun0 as -> ->.
  split; [reflexivity|]. split; [|split; [exact Hloc|split; [exact Hcus|]]].
  - exists logs, k. split; [exact Hkey|].
    intros k' Hk'. by rewrite Hitems, lookup_insert_ne.
  - rewrite Hheap. by apply (modifier_heap_grows cacheOptions _ _ v v').
Qed.



(** With [except: "page"] and [only: ["limit"]] both set, a change to
    [{categoryId:2, page:1, limit:10}] stores the object without [page]:
    [categoryId], which [only] does not list, is stored too. *)
Example both_lists_store_all_but_page :
  (fun r => match r with
            | Ok (_, w') => w_localStorage w' !! "Table[filter]"
            | _ => None
            end)
    (handler_fn JSONText.stringify Scenario.both_lists "filter"
       (Scenario.table (VRef 0)) (VRef 0)
       (Scenario.world_with [Samples.filter_value] None))
  = Some (JSONText.stringify
            (TObject [("categoryId", TNumber 2); ("limit", TNumber 10)])).
Proof. reflexivity. Qed.

(** ** [Object.assign] and [merge] *)

Module MergeFacts.

Section Props.
Context {A : Type}.
Implicit Types (o s t : list (string * A)) (k : string).

Lemma set_prop_new t k (v : A) :
  k ∉ keys t -> set_prop k v t = t ++ [(k, v)].
Proof.
  unfold keys. induction t as [|[k0 v0] r IH]; simpl; [reflexivity|].
  rewrite not_elem_of_cons. intros [Hne Hr].
  destruct (String.eqb k0 k) eqn:E.
  - apply String.eqb_eq in E. congruence.
  - by rewrite IH.
Qed.


(** Assigning distinct new keys appends them in order. *)
Lemma overlay_new s : forall t,
  NoDup (keys (t ++ s)) -> overlay t s = t ++ s.
Proof.
  unfold overlay. induction s as [|[k v] r IH]; intros t Hnd; simpl.
  - by rewrite app_nil_r.
  - assert (Hk : k ∉ keys t).
    { unfold keys in *. rewrite fmap_app in Hnd.
      apply NoDup_app in Hnd as (_ & Hd & _). intros Hin.
      apply (Hd k Hin). simpl. apply elem_of_cons. by left. }
    rewrite (set_prop_new t k v Hk), IH, <- app_assoc; [reflexivity|].
    by rewrite <- app_assoc.
Qed.




End Props.

Lemma chars_match (h : list (list (string * value))) (cs : list ascii) :
  forall g : nat -> string,
    fields_match h
      (imap (fun i c => (g i, VString (String c EmptyString))) cs)
      (imap (fun i c => (g i, TString (String c EmptyString))) cs).
Proof.
  unfold fields_match. induction cs as [|c r IH]; intros g; simpl; constructor.
  - split; [reflexivity|]. by destruct (length h).
  - apply (IH (fun i => g (S i))).
Qed.

(** What [Object.assign] reads from a value has the fields [own_fields]
    gives for its structure. *)
Lemma own_enumerable_match (h : list (list (string * value))) (v : value)
    (t : tree) :
  snapshot h v = Some t ->
  fields_match h (own_enumerable h v) (Observe.own_fields t).
Proof.
  intros Hs. destruct v as [| | b | n | s | l].
  1-4: injection Hs as <-; constructor.
  - injection Hs as <-. apply chars_match.
  - destruct (snapshot_ref_inv h l t Hs) as (o & fs & Hl & -> & Hm).
    unfold own_enumerable. by rewrite Hl.
Qed.

(** [merge] builds one new object: the fields of [a], overwritten and
    completed by those of [b], when neither has a key [__proto__]. *)
Lemma merge_snapshot (h : list (list (string * value))) (a b : value)
    (ta tb : tree) :
  snapshot h a = Some ta ->
  snapshot h b = Some tb ->
  mentions (keys (Observe.own_fields ta)) "__proto__" = false ->
  mentions (keys (Observe.own_fields tb)) "__proto__" = false ->
  exists o,
    merge h a b = Ok (h ++ [o], VRef (length h)) /\
    snapshot (h ++ [o]) (VRef (length h))
      = Some (TObject (overlay (overlay [] (Observe.own_fields ta))
                               (Observe.own_fields tb))).
Proof.
  intros Ha Hb Hpa Hpb. unfold merge.
  pose proof (own_enumerable_match h a ta Ha) as Hma.
  pose proof (own_enumerable_match h b tb Hb) as Hmb.
  rewrite <- (keys_match _ _ _ Hma) in Hpa.
  rewrite <- (keys_match _ _ _ Hmb) in Hpb.
  rewrite (assign_overlay _ _ _ Hpa). cbn [covered obind].
  rewrite (assign_overlay _ _ _ Hpb). cbn [covered obind].
  eexists. split; [reflexivity|].
  apply snapshot_top. apply fields_match_overlay; [exact Hmb|].
  apply fields_match_overlay; [exact Hma|constructor].
Qed.

(** Whatever it is given, a [merge] that returns has added one object. *)
Lemma merge_heap (h h' : list (list (string * value))) (a b v : value) :
  merge h a b = Ok (h', v) -> exists o, h' = h ++ [o].
Proof.
  unfold merge.
  destruct (assign ObjectPrototype [] (own_enumerable h a)) as [[p o1]|];
    cbn [covered obind]; [|discriminate].
  destruct (assign p o1 (own_enumerable h b)) as [[p' o]|];
    cbn [covered obind]; [|discriminate].
  intros [= <- _]. by exists o.
Qed.

End MergeFacts.

(** ** The restore at creation *)

Module RestoreFacts.
Import MergeFacts.

Lemma this_get_set_other (this : Vue) (key k' : string) (v : value) :
  k' <> key -> this_get (this_set this key v) k' = this_get this k'.
Proof.
  intros Hne. unfold this_get, this_set. simpl. rewrite get_set_prop.
  destruct (String.eqb key k') eqn:E; [|reflexivity].
  apply String.eqb_eq in E. congruence.
Qed.

Section WithJSON.
Variable JSON_parse : string -> option tree.

Lemma parse_heap (raw : option string) (h h1 : list (list (string * value)))
    (v : value) :
  parse JSON_parse raw h = Ok (h1, v) -> exists k, h1 = h ++ k.
Proof.
  unfold parse. destruct raw as [s|].
  - destruct (JSON_parse s) as [t|]; [|discriminate]. intros [= Ha].
    destruct (alloc_spec t h h1 v Ha) as (k & -> & _). by exists k.
  - intros [= <- _]. exists []. by rewrite app_nil_r.
Qed.


(** The branch of the restore that merges: the default is an object or
    [null], and the value to restore is not [null]. *)
Lemma created_merges (cacheOptions : option CacheOptions) (key : string)
    (this : Vue) (w : world) (logs : list log_entry) (k : string)
    (raw : option string)
    (h1 : list (list (string * value))) (parsed : value) (tc tv : tree) :
  makeKey this key cacheOptions = Ok (logs, k) ->
  getItem (store_of cacheOptions) k w = Ok raw ->
  parse JSON_parse raw (w_heap w) = Ok (h1, parsed) ->
  typeof (this_get this key) = "object" ->
  nullish parsed (this_get this key) <> VNull ->
  snapshot h1 (this_get this key) = Some tc ->
  snapshot h1 (nullish parsed (this_get this key)) = Some tv ->
  mentions (keys (Observe.own_fields tc)) "__proto__" = false ->
  mentions (keys (Observe.own_fields tv)) "__proto__" = false ->
  exists this' w',
    created_hook JSON_parse cacheOptions key None this w = Ok (this', w') /\
    snapshot (w_heap w') (this_get this' key)
      = Some (TObject (overlay (overlay [] (Observe.own_fields tc))
                               (Observe.own_fields tv))) /\
    (exists l', this_get this' key = VRef l' /\ length h1 <= l') /\
    w_console w' =
      w_console w ++ logs ++
      (if truthy (this_get this key) then []
       else [Warn ("@Cache: prop [" +:+ key +:+ "] has no value: "
                   +:+ to_string (this_get this key)
                   +:+ ", saving as empty object")]).
Proof.
  intros Hkey Hget Hparse Hty Hv Hc Hs Hpc Hpv. unfold created_hook.
  rewrite Hkey. cbn [obind].
  rewrite getItem_console, Hget. cbn [obind].
  change (w_heap (console w logs)) with (w_heap w). rewrite Hparse.
  cbn [obind]. rewrite Hty. change (includes simpleTypes "object") with false.
  rewrite bool_decide_eq_false_2 by exact Hv. cbn [orb].
  destruct (truthy (this_get this key)); cbn [negb].
  - change (w_heap (with_heap (console w logs) h1)) with h1.
    destruct (merge_snapshot h1 _ _ tc tv Hc Hs Hpc Hpv) as (o & -> & Hm).
    cbn [obind].
    eexists _, _. split; [reflexivity|]. rewrite this_get_set.
    split; [exact Hm|]. split; [by eexists|]. simpl. by rewrite app_nil_r.
  - change (w_heap (with_heap (console (with_heap (console w logs) h1) _) _))
      with (h1 ++ [[]]).
    destruct (merge_snapshot (h1 ++ [[]]) _ _ tc tv
                (snapshot_mono _ [[]] _ _ Hc) (snapshot_mono _ [[]] _ _ Hs)
                Hpc Hpv)
      as (o & -> & Hm).
    cbn [obind].
    eexists _, _. split; [reflexivity|]. rewrite this_get_set.
    split; [exact Hm|]. split.
    + eexists. split; [reflexivity|]. rewrite length_app. lia.
    + simpl. by rewrite <- app_assoc.
Qed.

End WithJSON.

End RestoreFacts.

Import MergeFacts RestoreFacts.

(** X7. The hook [Cache] installs runs the restore first and the previous
    [created] hook after it, on the restored instance; when the restore
    raises, the previous hook is not run. *)
Theorem created_then_previous
    (JSON_parse : string -> option tree)
    (cacheOptions : option CacheOptions) (key : string) (f : hook)
    (this : Vue) (w : world) :
  created_hook JSON_parse cacheOptions key (Some f) this w =
  match created_hook JSON_parse cacheOptions key None this w with
  | Ok (this', w') => f this' w'
  | Throw e => Throw e
  | OutOfModel => OutOfModel
  end.
Proof.
  unfold created_hook.
  destruct (makeKey this key cacheOptions) as [[logs k]| |];
    cbn [obind]; try reflexivity.
  destruct (getItem (store_of cacheOptions) k (console w logs)) as [raw| |];
    cbn [obind]; try reflexivity.
  destruct (parse JSON_parse raw (w_heap (console w logs))) as [[h1 parsed]| |];
    cbn [obind]; try reflexivity.
  destruct (includes simpleTypes (typeof (this_get this key))
            || bool_decide (nullish parsed (this_get this key) = VNull));
    [reflexivity|].
  destruct (negb (truthy (this_get this key)));
    match goal with
    | |- context [merge ?h ?a ?b] => destruct (merge h a b) as [[h2 m]| |]
    end; reflexivity.
Qed.

(** X8. A restore that returns has set the one property and nothing else:
    the [$vnode] and every other field of the instance are as they were,
    both stores and the events are untouched, and the heap has only
    grown. *)
Theorem created_sets_one_property
    (JSON_parse : string -> option tree)
    (cacheOptions : option CacheOptions) (key : string)
    (this this' : Vue) (w w' : world) :
  created_hook JSON_parse cacheOptions key None this w = Ok (this', w') ->
  vnode this' = vnode this /\
  (forall k', k' <> key -> this_get this' k' = this_get this k') /\
  w_localStorage w' = w_localStorage w /\
  w_cacheStore w' = w_cacheStore w /\
  w_events w' = w_events w /\
  exists k, w_heap w' = w_heap w ++ k.
Proof.
  unfold created_hook.
  destruct (makeKey this key cacheOptions) as [[logs k]| |];
    cbn [obind]; try discriminate.
  destruct (getItem (store_of cacheOptions) k (console w logs)) as [raw| |];
    cbn [obind]; try discriminate.
  destruct (parse JSON_parse raw (w_heap (console w logs)))
    as [[h1 parsed]| |] eqn:Hp; cbn [obind]; try discriminate.
  apply parse_heap in Hp as [k1 Hk1]. simpl in Hk1. subst h1.
  destruct (includes simpleTypes (typeof (this_get this key))
            || bool_decide (nullish parsed (this_get this key) = VNull));
    cbn [obind].
  - intros [= <- <-]. repeat split; simpl; auto.
    + intros k' Hk'. by apply this_get_set_other.
    + by exists k1.
  - destruct (negb (truthy (this_get this key)));
      match goal with
      | |- context [merge ?h ?a ?b] =>
          destruct (merge h a b) as [[h2 m]| |] eqn:Hm
      end; cbn [obind]; try discriminate;
      apply merge_heap in Hm as [o Ho]; simpl in Ho; subst h2;
      intros [= <- <-]; repeat split; simpl; auto;
      try (intros k' Hk'; by rewrite ?this_get_set_other);
      eexists; rewrite <- ?app_assoc; reflexivity.
Qed.



(** X10. When the default is [null] and the stored text parses to an
    object without a key named [__proto__], the restore warns that the
    property has no value and sets it to a new object with the fields of
    the stored value. *)
Theorem null_default_takes_stored
    (JSON_parse : string -> option tree)
    (cacheOptions : option CacheOptions) (key : string)
    (this : Vue) (w : world) (logs : list log_entry) (k : string)
    (s : string) (fs : list (string * tree)) :
  this_get this key = VNull ->
  makeKey this key cacheOptions = Ok (logs, k) ->
  getItem (store_of cacheOptions) k w = Ok (Some s) ->
  JSON_parse s = Some (TObject fs) ->
  NoDup (keys fs) ->
  mentions (keys fs) "__proto__" = false ->
  exists this' w',
    created_hook JSON_parse cacheOptions key None this w = Ok (this', w') /\
    snapshot (w_heap w') (this_get this' key) = Some (TObject fs) /\
    Warn ("@Cache: prop [" +:+ key +:+ "] has no value: null"
          +:+ ", saving as empty object") ∈ w_console w'.
Proof.
  intros Hcur Hkey Hget Hp Hnd Hpr.
  destruct (alloc (w_heap w) (TObject fs)) as [h1 vb] eqn:Ha.
  destruct (snapshot_alloc _ _ _ _ Ha) as (Hb & kb & ->).
  assert (Hvb : exists lb, vb = VRef lb).
  { rewrite alloc_object in Ha. injection Ha as _ <-. by eexists. }
  destruct Hvb as [lb ->].
  destruct (created_merges JSON_parse cacheOptions key this w logs k (Some s)
              (w_heap w ++ kb) (VRef lb) TNull (TObject fs) Hkey Hget)
    as (this' & w' & Hc & Hsnap & _ & Hcons);
    rewrite ?Hcur; try done.
  { unfold parse. by rewrite Hp, Ha. }
  exists this', w'. split; [exact Hc|]. split.
  - rewrite Hsnap. cbn [Observe.own_fields].
    change (overlay [] (@nil (string * tree))) with (@nil (string * tree)).
    by rewrite (overlay_new fs []).
  - rewrite Hcons, Hcur. simpl. rewrite !elem_of_app. right. right.
    apply list_elem_of_singleton. reflexivity.
Qed.

Lemma null_default_takes_stored_witness :
  exists this' w',
    created_hook JSONText.parse None "filter" None (Scenario.table VNull)
      (Scenario.world_with []
         (Some (JSONText.stringify (TObject [("page", TNumber 3)]))))
      = Ok (this', w') /\
    snapshot (w_heap w') (this_get this' "filter")
      = Some (TObject [("page", TNumber 3)]) /\
    Warn ("@Cache: prop [" +:+ "filter" +:+ "] has no value: null"
          +:+ ", saving as empty object") ∈ w_console w'.
Proof.
  apply (null_default_takes_stored JSONText.parse None "filter"
           (Scenario.table VNull)
           (Scenario.world_with []
              (Some (JSONText.stringify (TObject [("page", TNumber 3)]))))
           [] "Table[filter]"
           (JSONText.stringify (TObject [("page", TNumber 3)]))
           [("page", TNumber 3)]); try reflexivity.
  unfold keys. simpl. apply (bool_decide_unpack _). reflexivity.
Defined.

(** X11. A stored number or boolean never replaces an object default
    (one without a key named [__proto__]): the restore sets the property
    to a new object with exactly the fields of the default, and the stored
    value is dropped. *)
Theorem stored_primitive_is_dropped
    (JSON_parse : string -> option tree)
    (cacheOptions : option CacheOptions) (key : string)
    (this : Vue) (w : world) (logs : list log_entry) (k : string)
    (s : string) (la : nat)
    (fd : list (string * tree)) (tp : tree) :
  this_get this key = VRef la ->
  snapshot (w_heap w) (VRef la) = Some (TObject fd) ->
  NoDup (keys fd) ->
  mentions (keys fd) "__proto__" = false ->
  makeKey this key cacheOptions = Ok (logs, k) ->
  getItem (store_of cacheOptions) k w = Ok (Some s) ->
  JSON_parse s = Some tp ->
  (exists n, tp = TNumber n) \/ (exists b, tp = TBool b) ->
  exists this' w',
    created_hook JSON_parse cacheOptions key None this w = Ok (this', w') /\
    snapshot (w_heap w') (this_get this' key) = Some (TObject fd).
Proof.
  intros Hcur Hd Hnd Hpr Hkey Hget Hp Htp.
  assert (Hal : exists vp, alloc (w_heap w) tp = (w_heap w, vp) /\
                           vp <> VNull /\ vp <> VUndefined /\
                           snapshot (w_heap w) vp = Some tp /\
                           Observe.own_fields tp = []).
  { destruct Htp as [[n ->]|[b ->]]; eexists; repeat split; discriminate. }
  destruct Hal as (vp & Ha & Hn1 & Hn2 & Hsp & Hown).
  assert (Hv : nullish vp (VRef la) = vp) by (by destruct vp).
  destruct (created_merges JSON_parse cacheOptions key this w logs k (Some s)
              (w_heap w) vp (TObject fd) tp Hkey Hget)
    as (this' & w' & Hc & Hsnap & _);
    rewrite ?Hcur, ?Hv, ?Hown; try done.
  { unfold parse. by rewrite Hp, Ha. }
  exists this', w'. split; [exact Hc|].
  rewrite Hsnap, Hown. cbn [Observe.own_fields].
  change (overlay (overlay [] fd) []) with (overlay [] fd).
  by rewrite (overlay_new fd []).
Qed.

Lemma stored_primitive_is_dropped_witness :
  exists this' w',
    created_hook JSONText.parse None "filter" None (Scenario.table (VRef 0))
      (Scenario.world_with [[("a", VNumber 1)]] (Some "true"))
      = Ok (this', w') /\
    snapshot (w_heap w') (this_get this' "filter")
      = Some (TObject [("a", TNumber 1)]).
Proof.
  apply (stored_primitive_is_dropped JSONText.parse None "filter"
           (Scenario.table (VRef 0))
           (Scenario.world_with [[("a", VNumber 1)]] (Some "true"))
           [] "Table[filter]"
           "true" 0 [("a", TNumber 1)] (TBool true)); try reflexivity.
  - unfold keys. simpl. apply (bool_decide_unpack _). reflexivity.
  - right. by exists true.
Defined.

(** ** Saving, then restoring *)

Module RoundTripFacts.
Import Observe.

Lemma makeKey_same_tag (this1 this2 : Vue) (key : string)
    (cacheOptions : option CacheOptions) :
  vnode this2 = vnode this1 ->
  makeKey this2 key cacheOptions = makeKey this1 key cacheOptions.
Proof. intros E. unfold makeKey. by rewrite E. Qed.

Lemma getItem_items (st : store) (k : string) (w : world) :
  can_get st = true -> getItem st k w = Ok (items st w !! k).
Proof. destruct st as [|s]; simpl; [done|]. by intros ->. Qed.

Lemma NoDup_keys_filter {A} (g : string * A -> bool) (fs : list (string * A)) :
  NoDup (keys fs) -> NoDup (keys (List.filter g fs)).
Proof.
  unfold keys. induction fs as [|[k v] r IH]; simpl; [done|].
  intros [Hk Hr]%NoDup_cons. destruct (g (k, v)); simpl; [|by apply IH].
  apply NoDup_cons. split; [|by apply IH].
  intros Hin. apply Hk. apply list_elem_of_fmap in Hin as ([k' v'] & -> & Hin).
  apply list_elem_of_fmap. exists (k', v'). split; [reflexivity|].
  apply list_elem_of_In, List.filter_In in Hin as [Hin _].
  by apply list_elem_of_In.
Qed.

End RoundTripFacts.

Import RoundTripFacts.

(** X12. Saving and restoring compose.  With an [except] list set, a
    usable store, and a reader that reads back the text written: after a
    change of the property to an object, creating an instance of the same
    component (same [$vnode], an object default) gives the property, on
    every excluded name, the field of the default, and on every other name
    the field that was saved, or the default's where the saved value has
    none.  Neither what was saved nor the default has a key named
    [__proto__]. *)
Theorem save_then_restore
    (JSON_parse : string -> option tree) (JSON_stringify : tree -> string)
    (cacheOptions : option CacheOptions) (key : string)
    (this1 this2 : Vue) (w : world) (logs : list log_entry) (sk : string)
    (ex : names) (l ld : nat) (fs fd : list (string * tree)) :
  cacheOptions ≫= except = Some ex ->
  names_truthy ex = true ->
  can_set (store_of cacheOptions) = true ->
  can_get (store_of cacheOptions) = true ->
  makeKey this1 key cacheOptions = Ok (logs, sk) ->
  snapshot (w_heap w) (VRef l) = Some (TObject fs) ->
  NoDup (keys fs) ->
  mentions (keys (without (name_list ex) fs)) "__proto__" = false ->
  JSON_parse (JSON_stringify (TObject (without (name_list ex) fs)))
    = Some (TObject (without (name_list ex) fs)) ->
  vnode this2 = vnode this1 ->
  this_get this2 key = VRef ld ->
  snapshot (w_heap w) (VRef ld) = Some (TObject fd) ->
  NoDup (keys fd) ->
  mentions (keys fd) "__proto__" = false ->
  exists w1 this2' w2 fm,
    handler_fn JSON_stringify cacheOptions key this1 (VRef l) w = Ok (this1, w1) /\
    created_hook JSON_parse cacheOptions key None this2 w1 = Ok (this2', w2) /\
    snapshot (w_heap w2) (this_get this2' key) = Some (TObject fm) /\
    (forall k, k ∈ name_list ex -> field k (TObject fm) = field k (TObject fd)) /\
    (forall k, k ∉ name_list ex ->
       field k (TObject fm) =
       match field k (TObject fs) with
       | Some x => Some x
       | None => field k (TObject fd)
       end).
Proof.
  intros Hex Hset Hcs Hcg Hkey Hs Hnd Hprs Hrt Htag Hcur Hd Hndd Hprd.
  (* the change *)
  destruct (purgeExceptList_object (w_heap w) l fs (Some ex) Hs)
    as (k & o & Hp & _ & _ & Hm).
  cbn [set_names from_option] in Hm. rewrite Hset in Hm.
  assert (Hmod : modifier cacheOptions (w_heap w) (VRef l)
                 = Ok ((w_heap w ++ k) ++ [o], VRef (length (w_heap w ++ k)))).
  { unfold modifier. rewrite Hex. cbn [set_names]. by rewrite Hset. }
  destruct (handler_run JSON_stringify cacheOptions key this1 (VRef l) w
              logs sk _ _ _ Hkey Hmod (snapshot_top _ _ _ Hm) Hcs)
    as (w1 & Hrun & Hitems & Hheap & _).
  (* the creation *)
  set (fs' := without (name_list ex) fs) in *.
  assert (Hkey2 : makeKey this2 key cacheOptions = Ok (logs, sk)).
  { by rewrite (makeKey_same_tag this1 this2 _ _ Htag). }
  assert (Hget : getItem (store_of cacheOptions) sk w1
                 = Ok (Some (JSON_stringify (TObject fs')))).
  { rewrite (getItem_items _ _ _ Hcg). by rewrite Hitems, lookup_insert_eq. }
  destruct (alloc (w_heap w1) (TObject fs')) as [h2 vb] eqn:Ha.
  destruct (snapshot_alloc _ _ _ _ Ha) as (Hb & kb & ->).
  assert (Hvb : exists lb, vb = VRef lb).
  { rewrite alloc_object in Ha. injection Ha as _ <-. by eexists. }
  destruct Hvb as [lb ->].
  assert (Hd2 : snapshot (w_heap w1 ++ kb) (VRef ld) = Some (TObject fd)).
  { rewrite Hheap, <- !app_assoc. by apply snapshot_mono. }
  destruct (created_merges JSON_parse cacheOptions key this2 w1 logs sk _
              (w_heap w1 ++ kb) (VRef lb) (TObject fd) (TObject fs')
              Hkey2 Hget)
    as (this2' & w2 & Hc & Hsnap & _);
    rewrite ?Hcur; try done.
  { unfold parse. by rewrite Hrt, Ha. }
  exists w1, this2', w2, (overlay (overlay [] fd) fs').
  split; [exact Hrun|]. split; [exact Hc|]. split; [exact Hsnap|].
  assert (Hf : forall x,
    field x (TObject (overlay (overlay [] fd) fs')) =
    match field x (TObject fs') with
    | Some y => Some y
    | None => field x (TObject fd)
    end).
  { intros x. unfold field.
    rewrite (get_overlay fs' _ x) by (by apply NoDup_keys_filter).
    destruct (get_prop x fs'); [reflexivity|].
    rewrite (get_overlay fd [] x Hndd). by destruct (get_prop x fd). }
  split; intros x Hx; rewrite Hf; unfold fs', without;
    rewrite (field_filter (fun y => negb (mentions (name_list ex) y))).
  - apply mentions_In in Hx. by rewrite Hx.
  - destruct (mentions (name_list ex) x) eqn:E; [|reflexivity].
    apply mentions_In in E. contradiction.
Qed.

Lemma save_then_restore_witness :
  exists w1 this2' w2 fm,
    handler_fn JSONText.stringify Scenario.both_lists "filter"
      (Scenario.table (VRef 0)) (VRef 0)
      (Scenario.world_with
         [[("categoryId", VNumber 2); ("page", VNumber 1)];
          [("categoryId", VNumber 0); ("page", VNumber 0)]] None)
      = Ok (Scenario.table (VRef 0), w1) /\
    created_hook JSONText.parse Scenario.both_lists "filter" None
      (Scenario.table (VRef 1)) w1 = Ok (this2', w2) /\
    snapshot (w_heap w2) (this_get this2' "filter") = Some (TObject fm) /\
    (forall k, k ∈ name_list (One "page") ->
       field k (TObject fm)
       = field k (TObject [("categoryId", TNumber 0); ("page", TNumber 0)])) /\
    (forall k, k ∉ name_list (One "page") ->
       field k (TObject fm) =
       match field k (TObject [("categoryId", TNumber 2); ("page", TNumber 1)]) with
       | Some x => Some x
       | None => field k (TObject [("categoryId", TNumber 0); ("page", TNumber 0)])
       end).
Proof.
  apply (save_then_restore JSONText.parse JSONText.stringify
           Scenario.both_lists "filter"
           (Scenario.table (VRef 0)) (Scenario.table (VRef 1))
           (Scenario.world_with
              [[("categoryId", VNumber 2); ("page", VNumber 1)];
               [("categoryId", VNumber 0); ("page", VNumber 0)]] None)
           [] "Table[filter]"
           (One "page") 0 1
           [("categoryId", TNumber 2); ("page", TNumber 1)]
           [("categoryId", TNumber 0); ("page", TNumber 0)]);
    try reflexivity;
    unfold keys; simpl; apply (bool_decide_unpack _); reflexivity.
Defined.

(** ** Decorating a component *)

Module RegisterFacts.
Import Observe.

Section WithJSON.
Variable JSON_parse : string -> option tree.
Variable JSON_stringify : tree -> string.

(** What [Cache] leaves of the entries of the other keys, and what it
    logs about the store. *)
Lemma Cache_other_entries (cacheOptions : option CacheOptions)
    (target : list string) (key : string) (options options' : ComponentOptions)
    (logs : list log_entry) :
  bool_decide (key ∈ target) = false ->
  Cache JSON_parse JSON_stringify cacheOptions target key options
    = Ok (logs, options') ->
  (forall k', k' <> key ->
     watch options' ≫= (fun m => m !! k') = watch options ≫= (fun m => m !! k')) /\
  (incomplete_store cacheOptions = true ->
   Error "@Cache: cacheStore must have getItem and setItem functions" ∈ logs).
Proof.
  intros Hkey. unfold Cache, incomplete_store. rewrite Hkey.
  assert (Hlog : forall l1 : list log_entry,
    match cacheOptions ≫= cacheStore with
    | Some s => negb (has_getItem s) || negb (has_setItem s)
    | None => false
    end = true ->
    Error "@Cache: cacheStore must have getItem and setItem functions"
    ∈ l1 ++ match cacheOptions ≫= cacheStore with
            | Some s =>
                if negb (has_getItem s) || negb (has_setItem s)
                then [Error "@Cache: cacheStore must have getItem and setItem functions"]
                else []
            | None => []
            end).
  { intros l1 H. apply elem_of_app. right.
    destruct (cacheOptions ≫= cacheStore) as [s|]; [|discriminate].
    rewrite H. apply list_elem_of_singleton. reflexivity. }
  destruct options as [[wm|] c]; simpl.
  - destruct (wm !! key) as [[[o|f|m]|l]|] eqn:E;
      rewrite ?lookup_insert_eq, ?E; try discriminate;
      intros [= <- <-]; (split; [|apply Hlog]); intros k' Hk'; simpl;
      by rewrite ?lookup_insert_ne by done.
  - rewrite lookup_empty, lookup_insert_eq. intros [= <- <-].
    split; [|apply Hlog]. intros k' Hk'. simpl.
    by rewrite !lookup_insert_ne, lookup_empty by done.
Qed.

End WithJSON.

End RegisterFacts.

Import RegisterFacts.

(** X13. On a data property whose watcher entry is absent, one options
    object or an array, [Cache] keeps every watcher the component declares:
    those of the property stay, in their order, before the watcher it
    appends; those of the other properties are as they were; and the
    [created] hook becomes the restore followed by the previous hook. *)
Theorem Cache_keeps_declared_watchers
    (JSON_parse : string -> option tree) (JSON_stringify : tree -> string)
    (cacheOptions : option CacheOptions) (target : list string) (key : string)
    (options : ComponentOptions) :
  bool_decide (key ∈ target) = false ->
  pushable options key = true ->
  exists logs options',
    Cache JSON_parse JSON_stringify cacheOptions target key options
      = Ok (logs, options') /\
    watchers_of options' key =
      watchers_of options key
        ++ [WOptions (cache_watcher JSON_stringify cacheOptions key)] /\
    (forall k', k' <> key -> watchers_of options' k' = watchers_of options k') /\
    created options' =
      Some (created_hook JSON_parse cacheOptions key (created options)).
Proof.
  intros Hkey Hpush.
  destruct (Cache_ok JSON_parse JSON_stringify cacheOptions target key options
              Hkey Hpush) as (logs & options' & Hc & Hw & Ho & Hcr & _).
  by exists logs, options'.
Qed.

Lemma Cache_keeps_declared_watchers_witness :
  exists logs options',
    Cache JSONText.parse JSONText.stringify None [] "filter" Scenario.plain
      = Ok (logs, options') /\
    watchers_of options' "filter" =
      watchers_of Scenario.plain "filter"
        ++ [WOptions (cache_watcher JSONText.stringify None "filter")] /\
    (forall k', k' <> "filter" ->
       watchers_of options' k' = watchers_of Scenario.plain k') /\
    created options' =
      Some (created_hook JSONText.parse None "filter" (created Scenario.plain)).
Proof.
  apply (Cache_keeps_declared_watchers JSONText.parse JSONText.stringify
           None [] "filter" Scenario.plain); reflexivity.
Defined.

(** X14. Two decorated properties compose: after [Cache] for one key and
    then for another, each key has its declared watchers followed by its
    own cache watcher, and the [created] hook restores the second property,
    then the first, then runs the component's own hook. *)
Theorem two_properties_compose
    (JSON_parse : string -> option tree) (JSON_stringify : tree -> string)
    (co1 co2 : option CacheOptions) (target : list string) (k1 k2 : string)
    (options : ComponentOptions) :
  k1 <> k2 ->
  bool_decide (k1 ∈ target) = false ->
  bool_decide (k2 ∈ target) = false ->
  pushable options k1 = true ->
  pushable options k2 = true ->
  exists logs1 options1 logs2 options2,
    Cache JSON_parse JSON_stringify co1 target k1 options = Ok (logs1, options1) /\
    Cache JSON_parse JSON_stringify co2 target k2 options1 = Ok (logs2, options2) /\
    watchers_of options2 k1 =
      watchers_of options k1 ++ [WOptions (cache_watcher JSON_stringify co1 k1)] /\
    watchers_of options2 k2 =
      watchers_of options k2 ++ [WOptions (cache_watcher JSON_stringify co2 k2)] /\
    created options2 =
      Some (created_hook JSON_parse co2 k2
              (Some (created_hook JSON_parse co1 k1 (created options)))).
Proof.
  intros Hne Ht1 Ht2 Hp1 Hp2.
  destruct (Cache_ok JSON_parse JSON_stringify co1 target k1 options Ht1 Hp1)
    as (logs1 & options1 & Hc1 & Hw1 & Ho1 & Hcr1 & _).
  destruct (Cache_other_entries JSON_parse JSON_stringify co1 target k1
              options options1 logs1 Ht1 Hc1) as [He1 _].
  assert (Hp2' : pushable options1 k2 = true).
  { unfold pushable in *. rewrite He1 by congruence. exact Hp2. }
  destruct (Cache_ok JSON_parse JSON_stringify co2 target k2 options1 Ht2 Hp2')
    as (logs2 & options2 & Hc2 & Hw2 & Ho2 & Hcr2 & _).
  exists logs1, options1, logs2, options2.
  split; [exact Hc1|]. split; [exact Hc2|]. split; [|split].
  - by rewrite (Ho2 k1 Hne), Hw1.
  - rewrite Hw2, (Ho1 k2) by congruence. reflexivity.
  - by rewrite Hcr2, Hcr1.
Qed.

Lemma two_properties_compose_witness :
  exists logs1 options1 logs2 options2,
    Cache JSONText.parse JSONText.stringify None [] "filter" Scenario.plain
      = Ok (logs1, options1) /\
    Cache JSONText.parse JSONText.stringify Scenario.shallow [] "page" options1
      = Ok (logs2, options2) /\
    watchers_of options2 "filter" =
      watchers_of Scenario.plain "filter"
        ++ [WOptions (cache_watcher JSONText.stringify None "filter")] /\
    watchers_of options2 "page" =
      watchers_of Scenario.plain "page"
        ++ [WOptions (cache_watcher JSONText.stringify Scenario.shallow "page")] /\
    created options2 =
      Some (created_hook JSONText.parse Scenario.shallow "page"
              (Some (created_hook JSONText.parse None "filter"
                       (created Scenario.plain)))).
Proof.
  apply (two_properties_compose JSONText.parse JSONText.stringify
           None Scenario.shallow [] "filter" "page" Scenario.plain);
    [discriminate|reflexivity..].
Defined.

(** The key is resolved, or the read of [vm.$vnode.tag] raises. *)
Lemma makeKey_cases (vm : Vue) (key : string) (options : option CacheOptions) :
  (exists logs k, makeKey vm key options = Ok (logs, k)) \/
  (exists m, makeKey vm key options = Throw (TypeError m)).
Proof.
  unfold makeKey. destruct (set_string (options ≫= cacheKey)); [left; eauto|].
  destruct (vnode vm) as [node|]; [left|right; eauto].
  destruct (negb (set_string (tag node))); eauto.
Qed.

(** X15. A custom store without [getItem] is reported when the property is
    decorated, and the decoration goes on; every creation of the component
    then raises a [TypeError]: at the read of the store, once the key is
    resolved. *)
Theorem store_without_getItem
    (JSON_parse : string -> option tree) (JSON_stringify : tree -> string)
    (cacheOptions : option CacheOptions) (s : Storage)
    (target : list string) (key : string) (options : ComponentOptions) :
  cacheOptions ≫= cacheStore = Some s ->
  has_getItem s = false ->
  bool_decide (key ∈ target) = false ->
  pushable options key = true ->
  exists logs options' restore,
    Cache JSON_parse JSON_stringify cacheOptions target key options
      = Ok (logs, options') /\
    Error "@Cache: cacheStore must have getItem and setItem functions" ∈ logs /\
    created options' = Some restore /\
    (forall this w, exists m, restore this w = Throw (TypeError m)) /\
    (forall this w klogs k,
       makeKey this key cacheOptions = Ok (klogs, k) ->
       restore this w = Throw (TypeError "store.getItem is not a function")).
Proof.
  intros Hst Hget Hkey Hpush.
  destruct (Cache_ok JSON_parse JSON_stringify cacheOptions target key options
              Hkey Hpush) as (logs & options' & Hc & _ & _ & Hcr & _).
  destruct (Cache_other_entries JSON_parse JSON_stringify cacheOptions target
              key options options' logs Hkey Hc) as [_ Hlog].
  exists logs, options', (created_hook JSON_parse cacheOptions key (created options)).
  split; [exact Hc|]. split; [|split; [exact Hcr|]].
  - apply Hlog. unfold Observe.incomplete_store. by rewrite Hst, Hget.
  - assert (Hgo : forall this w klogs k,
      makeKey this key cacheOptions = Ok (klogs, k) ->
      created_hook JSON_parse cacheOptions key (created options) this w
      = Throw (TypeError "store.getItem is not a function")).
    { intros this w klogs k Hk. unfold created_hook, store_of.
      rewrite Hst, Hk. cbn [obind from_option getItem]. by rewrite Hget. }
    split; [|exact Hgo]. intros this w.
    destruct (makeKey_cases this key cacheOptions) as [(kl & k & Hk)|[m Hm]].
    + eexists. by apply (Hgo this w kl k).
    + exists m. unfold created_hook. by rewrite Hm.
Qed.

(** X16. With a custom store without [setItem], no change of the property
    is ever saved: the handler does not return, it raises (unless the
    value is one this model does not cover). *)
Theorem store_without_setItem
    (JSON_stringify : tree -> string)
    (cacheOptions : option CacheOptions) (s : Storage) (key : string)
    (this : Vue) (v : value) (w : world) :
  cacheOptions ≫= cacheStore = Some s ->
  has_setItem s = false ->
  (exists e, handler_fn JSON_stringify cacheOptions key this v w = Throw e) \/
  handler_fn JSON_stringify cacheOptions key this v w = OutOfModel.
Proof.
  intros Hst Hset.
  destruct (handler_fn JSON_stringify cacheOptions key this v w)
    as [[this' w']|e|] eqn:Hrun; [|left; by exists e|by right].
  destruct (handler_inv JSON_stringify cacheOptions key this this' v w w' Hrun)
    as (logs & k & h1 & v' & t' & _ & _ & _ & Hcan).
  unfold store_of in Hcan. rewrite Hst in Hcan. simpl in Hcan. congruence.
Qed.

Lemma store_without_getItem_witness :
  exists logs options' restore,
    Cache JSONText.parse JSONText.stringify Samples.empty_store [] "filter"
          Scenario.plain = Ok (logs, options') /\
    Error "@Cache: cacheStore must have getItem and setItem functions" ∈ logs /\
    created options' = Some restore /\
    (forall this w, exists m, restore this w = Throw (TypeError m)) /\
    (forall this w klogs k,
       makeKey this "filter" Samples.empty_store = Ok (klogs, k) ->
       restore this w = Throw (TypeError "store.getItem is not a function")).
Proof.
  apply (store_without_getItem JSONText.parse JSONText.stringify
           Samples.empty_store {| has_getItem := false; has_setItem := false |}
           [] "filter" Scenario.plain); reflexivity.
Defined.

Lemma store_without_setItem_witness :
  (exists e,
     handler_fn JSONText.stringify Samples.empty_store "filter"
       (Scenario.table (VNumber 1)) (VNumber 2) (Scenario.world_with [] None)
     = Throw e) \/
  handler_fn JSONText.stringify Samples.empty_store "filter"
    (Scenario.table (VNumber 1)) (VNumber 2) (Scenario.world_with [] None)
  = OutOfModel.
Proof.
  apply (store_without_setItem JSONText.stringify Samples.empty_store
           {| has_getItem := false; has_setItem := false |} "filter"
           (Scenario.table (VNumber 1)) (VNumber 2) (Scenario.world_with [] None));
    reflexivity.
Defined.

Lemma handler_saves_only_listed_witness :
  exists w',
    handler_fn JSONText.stringify Samples.only_limit "filter"
      (Scenario.table (VRef 0)) (VRef 0)
      (Scenario.world_with [Samples.filter_value] None)
      = Ok (Scenario.table (VRef 0), w') /\
    items (store_of Samples.only_limit) w' !! "Table[filter]"
      = Some (JSONText.stringify
                (TObject (List.filter (fun f => only_keep (One "limit") f.1)
                            Samples.filter_tree))) /\
    snapshot (w_heap w') (VRef 0) = Some (TObject Samples.filter_tree).
Proof.
  apply (handler_saves_only_listed JSONText.stringify Samples.only_limit
           "filter" (Scenario.table (VRef 0)) [] "Table[filter]"
           0 Samples.filter_tree
           (Scenario.world_with [Samples.filter_value] None) (One "limit"));
    reflexivity.
Defined.

Lemma handler_saves_whole_value_witness :
  exists w',
    handler_fn JSONText.stringify None "filter"
      (Scenario.table (VRef 0)) (VRef 0)
      (Scenario.world_with [Samples.filter_value] None)
      = Ok (Scenario.table (VRef 0), w') /\
    items (store_of None) w' !! "Table[filter]"
      = Some (JSONText.stringify (TObject Samples.filter_tree)) /\
    w_heap w' = w_heap (Scenario.world_with [Samples.filter_value] None).
Proof.
  apply (handler_saves_whole_value JSONText.stringify None "filter"
           (Scenario.table (VRef 0)) [] "Table[filter]"
           (VRef 0) (TObject Samples.filter_tree)
           (Scenario.world_with [Samples.filter_value] None));
    reflexivity.
Defined.

Lemma handler_writes_one_key_witness :
  exists this' w',
    handler_fn JSONText.stringify Samples.only_limit "filter"
      (Scenario.table (VRef 0)) (VRef 0)
      (Scenario.world_with [Samples.filter_value] (Some "5"))
      = Ok (this', w') /\
    this' = Scenario.table (VRef 0) /\
    (exists logs k,
       makeKey (Scenario.table (VRef 0)) "filter" Samples.only_limit
         = Ok (logs, k) /\
       forall k', k' <> k ->
         items (store_of Samples.only_limit) w' !! k'
         = items (store_of Samples.only_limit)
             (Scenario.world_with [Samples.filter_value] (Some "5")) !! k') /\
    (store_of Samples.only_limit = LocalStorage ->
     w_cacheStore w'
     = w_cacheStore (Scenario.world_with [Samples.filter_value] (Some "5"))) /\
    (store_of Samples.only_limit <> LocalStorage ->
     w_localStorage w'
     = w_localStorage (Scenario.world_with [Samples.filter_value] (Some "5"))) /\
    exists k,
      w_heap w'
      = w_heap (Scenario.world_with [Samples.filter_value] (Some "5")) ++ k.
Proof.
  destruct (handler_fn JSONText.stringify Samples.only_limit "filter"
              (Scenario.table (VRef 0)) (VRef 0)
              (Scenario.world_with [Samples.filter_value] (Some "5")))
    as [[this' w']| |] eqn:E; [|discriminate E..].
  exists this', w'. split; [reflexivity|].
  exact (handler_writes_one_key JSONText.stringify Samples.only_limit "filter"
           (Scenario.table (VRef 0)) this' (VRef 0)
           (Scenario.world_with [Samples.filter_value] (Some "5")) w' E).
Defined.

Lemma created_sets_one_property_witness :
  exists this' w',
    created_hook JSONText.parse None "filter" None (Scenario.table (VNumber 0))
      (Scenario.world_with [] (Some "5")) = Ok (this', w') /\
    vnode this' = vnode (Scenario.table (VNumber 0)) /\
    (forall k', k' <> "filter" ->
       this_get this' k' = this_get (Scenario.table (VNumber 0)) k') /\
    w_localStorage w' = w_localStorage (Scenario.world_with [] (Some "5")) /\
    w_cacheStore w' = w_cacheStore (Scenario.world_with [] (Some "5")) /\
    w_events w' = w_events (Scenario.world_with [] (Some "5")) /\
    exists k, w_heap w' = w_heap (Scenario.world_with [] (Some "5")) ++ k.
Proof.
  destruct (created_hook JSONText.parse None "filter" None
              (Scenario.table (VNumber 0)) (Scenario.world_with [] (Some "5")))
    as [[this' w']| |] eqn:E; [|discriminate E..].
  exists this', w'. split; [reflexivity|].
  exact (created_sets_one_property JSONText.parse None "filter"
           (Scenario.table (VNumber 0)) this'
           (Scenario.world_with [] (Some "5")) w' E).
Defined.

(** ** More on the key *)

Module KeyMore.
Import Key KeyFacts.

Lemma match_here_head (c : ascii) (r : string) :
  Ascii.eqb "v" c = false -> match_here (String c r) = None.
Proof.
  intros E. unfold match_here.
  change (strip_prefix "vue-component-" (String c r))
    with (if Ascii.eqb "v" c then strip_prefix "ue-component-" r else None).
  by rewrite E.
Qed.

Lemma replace_first_lacks (s : string) :
  lacks "v" s = true -> replace_first s = s.
Proof.
  induction s as [|c r IH]; [reflexivity|]. cbn [lacks replace_first].
  intros [Hc Hr]%andb_prop. apply negb_true_iff in Hc.
  rewrite (match_here_head c r Hc). f_equal. by apply IH.
Qed.

Lemma digit_not_v (c : ascii) : is_digit c = true -> Ascii.eqb "v" c = false.
Proof.
  intros Hd. destruct (Ascii.eqb "v" c) eqn:E; [|reflexivity].
  apply Ascii.eqb_eq in E. subst c. discriminate Hd.
Qed.

Lemma digits_lack_v (ds : string) : all_digits ds = true -> lacks "v" ds = true.
Proof.
  induction ds as [|c r IH]; [reflexivity|]. cbn [all_digits lacks].
  intros [Hc Hr]%andb_prop. by rewrite (digit_not_v c Hc), IH.
Qed.

Lemma drop_digits_all (ds : string) : all_digits ds = true -> drop_digits ds = "".
Proof.
  induction ds as [|c r IH]; [reflexivity|]. cbn [all_digits drop_digits].
  intros [Hc Hr]%andb_prop. rewrite Hc. by apply IH.
Qed.

(** A tag that ends with the number has no match: the expression wants a
    dash after the digits. *)
Lemma replace_first_bare_id (ds : string) :
  all_digits ds = true ->
  replace_first ("vue-component-" +:+ ds) = "vue-component-" +:+ ds.
Proof.
  intros Hd.
  change ("vue-component-" +:+ ds) with (String "v" ("ue-component-" +:+ ds)).
  cbn [replace_first].
  assert (Hm : match_here (String "v" ("ue-component-" +:+ ds)) = None).
  { unfold match_here.
    change (strip_prefix "vue-component-" (String "v" ("ue-component-" +:+ ds)))
      with (Some ds).
    destruct ds as [|c r]; [reflexivity|].
    pose proof Hd as Hd'. cbn [all_digits] in Hd'.
    apply andb_prop in Hd' as [Hc _]. rewrite Hc.
    by rewrite (drop_digits_all _ Hd). }
  rewrite Hm. f_equal. apply replace_first_lacks.
  change (lacks "v" ("ue-component-" +:+ ds)) with (lacks "v" ds).
  by apply digits_lack_v.
Qed.

Lemma replace_first_prefix (ds name : string) :
  all_digits ds = true -> ds <> "" ->
  replace_first (pattern ds +:+ name) = name.
Proof.
  intros Hd Hne.
  apply (replace_first_leftmost "" (pattern ds +:+ name) name);
    [reflexivity|by apply match_here_pattern].
Qed.

End KeyMore.

Import KeyMore.

(** X17. The key of a named component does not depend on the number in
    its tag: two instances whose tags differ only in that number resolve
    to the same key, so what one saved the other restores. *)
Theorem key_ignores_component_number
    (vm1 vm2 : Vue) (key : string) (options : option CacheOptions)
    (ds1 ds2 name : string) :
  vnode vm1 = Some {| tag := Some (pattern ds1 +:+ name) |} ->
  vnode vm2 = Some {| tag := Some (pattern ds2 +:+ name) |} ->
  all_digits ds1 = true -> ds1 <> "" ->
  all_digits ds2 = true -> ds2 <> "" ->
  name <> "" ->
  makeKey vm1 key options = makeKey vm2 key options /\
  (set_string (options ≫= cacheKey) = false ->
   makeKey vm1 key options = Ok ([], name +:+ "[" +:+ key +:+ "]")).
Proof.
  intros H1 H2 Hd1 Hn1 Hd2 Hn2 Hname.
  assert (Hgo : forall vm ds,
    vnode vm = Some {| tag := Some (pattern ds +:+ name) |} ->
    all_digits ds = true -> ds <> "" ->
    makeKey vm key options =
    if set_string (options ≫= cacheKey)
    then Ok ([], default "" (options ≫= cacheKey))
    else Ok ([], name +:+ "[" +:+ key +:+ "]")).
  { intros vm ds Hv Hd Hn. unfold makeKey. rewrite Hv.
    destruct (set_string (options ≫= cacheKey)); [reflexivity|].
    cbn [tag].
    assert (Hset : set_string (Some (pattern ds +:+ name)) = true)
      by reflexivity.
    rewrite Hset. cbn [negb from_option]. unfold id.
    rewrite (replace_first_prefix ds name Hd Hn).
    destruct name; [done|reflexivity]. }
  rewrite (Hgo vm1 ds1 H1 Hd1 Hn1), (Hgo vm2 ds2 H2 Hd2 Hn2).
  split; [reflexivity|]. by intros ->.
Qed.

Lemma key_ignores_component_number_witness :
  makeKey {| vnode := Some {| tag := Some (pattern "3" +:+ "Table") |};
             data := [] |}
          "filter" None
  = makeKey {| vnode := Some {| tag := Some (pattern "17" +:+ "Table") |};
               data := [("filter", VNumber 1)] |} "filter" None /\
  (set_string (None ≫= cacheKey) = false ->
   makeKey {| vnode := Some {| tag := Some (pattern "3" +:+ "Table") |};
              data := [] |}
           "filter" None = Ok ([], "Table" +:+ "[" +:+ "filter" +:+ "]")).
Proof.
  apply (key_ignores_component_number
           {| vnode := Some {| tag := Some (pattern "3" +:+ "Table") |};
              data := [] |}
           {| vnode := Some {| tag := Some (pattern "17" +:+ "Table") |};
              data := [("filter", VNumber 1)] |}
           "filter" None "3" "17" "Table");
    try reflexivity; discriminate.
Defined.

(** X18. A tag that is only "vue-component-" and a number (a component
    without a name) is not stripped: the expression needs the dash that
    follows the number, so the number stays in the key. *)
Theorem unnamed_component_keeps_number
    (vm : Vue) (key : string) (options : option CacheOptions) (ds : string) :
  vnode vm = Some {| tag := Some ("vue-component-" +:+ ds) |} ->
  all_digits ds = true ->
  set_string (options ≫= cacheKey) = false ->
  makeKey vm key options =
    Ok ([], ("vue-component-" +:+ ds) +:+ "[" +:+ key +:+ "]").
Proof.
  intros Hv Hd Hk. unfold makeKey. rewrite Hk, Hv. cbn [tag].
  assert (Hset : set_string (Some ("vue-component-" +:+ ds)) = true)
    by reflexivity.
  rewrite Hset. cbn [negb from_option]. unfold id.
  by rewrite (replace_first_bare_id ds Hd).
Qed.

Lemma unnamed_component_keeps_number_witness :
  makeKey {| vnode := Some {| tag := Some ("vue-component-" +:+ "5") |};
             data := [] |}
          "filter" None
  = Ok ([], ("vue-component-" +:+ "5") +:+ "[" +:+ "filter" +:+ "]").
Proof.
  apply (unnamed_component_keeps_number
           {| vnode := Some {| tag := Some ("vue-component-" +:+ "5") |};
              data := [] |}
           "filter" None "5"); reflexivity.
Defined.

(** X20. An instance without a [$vnode], as a root instance is, has no
    key unless a non-empty [cacheKey] is configured: the read of
    [vm.$vnode.tag] raises a [TypeError].  The restore then raises before
    it reads the store, whatever the previous [created] hook, which is not
    run; and the change handler raises before it writes. *)
Theorem instance_without_vnode
    (JSON_parse : string -> option tree) (JSON_stringify : tree -> string)
    (cacheOptions : option CacheOptions) (key : string) (old : option hook)
    (this : Vue) (v : value) (w : world) :
  vnode this = None ->
  set_string (cacheOptions ≫= cacheKey) = false ->
  (exists m, makeKey this key cacheOptions = Throw (TypeError m)) /\
  (exists m, created_hook JSON_parse cacheOptions key old this w
             = Throw (TypeError m)) /\
  (exists m, handler_fn JSON_stringify cacheOptions key this v w
             = Throw (TypeError m)).
Proof.
  intros Hv Hk.
  assert (Hm : makeKey this key cacheOptions
               = Throw (TypeError
                          "Cannot read properties of undefined (reading 'tag')")).
  { unfold makeKey. by rewrite Hk, Hv. }
  split; [by eexists|]. split.
  - eexists. unfold created_hook. by rewrite Hm.
  - eexists. unfold handler_fn. rewrite Hm.
    by destruct (set_string (cacheOptions ≫= globalDispatch)).
Qed.

Lemma instance_without_vnode_witness :
  (exists m, makeKey {| vnode := None; data := [("filter", VNumber 1)] |}
                     "filter" None = Throw (TypeError m)) /\
  (exists m, created_hook JSONText.parse None "filter" None
               {| vnode := None; data := [("filter", VNumber 1)] |}
               (Scenario.world_with [] (Some "5"))
             = Throw (TypeError m)) /\
  (exists m, handler_fn JSONText.stringify None "filter"
               {| vnode := None; data := [("filter", VNumber 1)] |}
               (VNumber 2) (Scenario.world_with [] (Some "5"))
             = Throw (TypeError m)).
Proof.
  apply (instance_without_vnode JSONText.parse JSONText.stringify None
           "filter" None {| vnode := None; data := [("filter", VNumber 1)] |}
           (VNumber 2) (Scenario.world_with [] (Some "5"))); reflexivity.
Defined.

(** X19. [merge] is shallow and builds a new object: the object returned
    is neither of the two merged, and each of its properties holds the
    very value, a reference included, that the second object has for the
    key, or else the first.  Neither object has a key named [__proto__]
    (that one [Object.assign] gives to the prototype setter). *)
Theorem merge_is_shallow
    (h : list (list (string * value))) (la lb : nat)
    (oa ob : list (string * value)) :
  h !! la = Some oa ->
  h !! lb = Some ob ->
  NoDup (keys oa) ->
  NoDup (keys ob) ->
  mentions (keys oa) "__proto__" = false ->
  mentions (keys ob) "__proto__" = false ->
  exists l' o,
    merge h (VRef la) (VRef lb) = Ok (h ++ [o], VRef l') /\
    l' <> la /\ l' <> lb /\
    forall k,
      get_prop k o =
      match get_prop k ob with
      | Some x => Some x
      | None => get_prop k oa
      end.
Proof.
  intros Hla Hlb Hna Hnb Hpa Hpb. unfold merge, own_enumerable.
  rewrite Hla, Hlb. cbn [from_option id].
  rewrite (assign_overlay _ _ _ Hpa). cbn [covered obind].
  rewrite (assign_overlay _ _ _ Hpb). cbn [covered obind].
  exists (length h), (overlay (overlay [] oa) ob).
  split; [reflexivity|].
  apply lookup_lt_Some in Hla as Hla'. apply lookup_lt_Some in Hlb as Hlb'.
  split; [lia|]. split; [lia|].
  intros k. rewrite (get_overlay ob _ k Hnb).
  destruct (get_prop k ob); [reflexivity|].
  rewrite (get_overlay oa [] k Hna). by destruct (get_prop k oa).
Qed.

Lemma merge_is_shallow_witness :
  exists l' o,
    merge [[("a", VRef 2); ("b", VNumber 2)]; [("b", VNumber 9)]; []]
          (VRef 0) (VRef 1)
      = Ok ([[("a", VRef 2); ("b", VNumber 2)]; [("b", VNumber 9)]; []] ++ [o],
            VRef l') /\
    l' <> 0 /\ l' <> 1 /\
    forall k,
      get_prop k o =
      match get_prop k [("b", VNumber 9)] with
      | Some x => Some x
      | None => get_prop k [("a", VRef 2); ("b", VNumber 2)]
      end.
Proof.
  apply (merge_is_shallow
           [[("a", VRef 2); ("b", VNumber 2)]; [("b", VNumber 9)]; []] 0 1
           [("a", VRef 2); ("b", VNumber 2)] [("b", VNumber 9)]);
    try reflexivity;
    unfold keys; simpl; apply (bool_decide_unpack _); reflexivity.
Defined.
